(** * Read-through cache of the products route

    A shallow embedding of [backend/src/config/redis.js] (the Redis client
    adapter: [connectRedis], [getRedisClient]) and of
    [backend/src/routes/products.js] (the GET handler that fronts the product
    list with the cache), together with the part of the environment they talk
    to: the node-redis client object, the Redis key space with expiry, the
    console and the HTTP response object.

    An [await] is a call whose outcome (fulfilled or rejected) is read from
    the world. The handler of a request runs to completion; [connectRedis] is
    given both as it stands and cut at its [await], so that requests and
    socket events can come while the connection attempt is pending. *)

From stdpp Require Import base option list gmap strings.
From Stdlib Require Import ZArith NArith String Ascii Lia.

#[local] Set Warnings "-register-all".
Local Open Scope Z_scope.
Local Open Scope string_scope.

(** ** Values *)

(** JavaScript values that travel through the cache and the response. Numbers
    are the integers; the product list uses nothing else. *)
Inductive json : Type :=
| JNull
| JBool (b : bool)
| JNumber (n : Z)
| JString (s : string)
| JArray (items : list json)
| JObject (fields : list (string * json)).

(** The runtime's [JSON] object. [JSON.parse] throws a SyntaxError on text that
    is not JSON: that is [None] here. *)
Class JSON : Type := {
  JSON_parse : string -> option json;
  JSON_stringify : json -> string
}.

(** An exception value; only its [message] is ever looked at. *)
Record js_error : Type := JsError { message : string }.

(** ** The world *)

(** [process.env], as far as redis.js reads it. *)
Record environment : Type := {
  REDIS_ENABLED : option string;
  REDIS_HOST : option string;
  REDIS_PORT : option string
}.

(** The events of a client the adapter subscribes to. *)
Inductive event_name : Type := ev_ready | ev_end | ev_error.

(** The three arrow functions passed to [redisClient.on] (redis.js lines 21,
    26 and 31). *)
Inductive callback : Type := on_ready | on_end | on_error.

Record socket_options : Type := {
  host : option string;
  port : option string;
  reconnectStrategy : bool
}.

(** Life cycle of a client's socket. A client that lost its socket goes to
    [Reconnecting] when it has a reconnect strategy and to [Closed] when
    [reconnectStrategy] is false. *)
Inductive connection : Type := Idle | Connecting | Open | Reconnecting | Closed.

(** A node-redis client object. *)
Record client : Type := {
  socket : socket_options;
  listeners : list (event_name * callback);
  conn : connection
}.

(** Commands put on the wire to the Redis server. *)
Inductive command : Type :=
| GET (key : string)
| SETEX (key : string) (seconds : Z) (value : string).

Inductive level : Type := log_ | warn_ | error_.

(** Body handed to [res.json]. *)
Inductive body : Type :=
| Payload (source : string) (data : json)
| Failure (error : string).

(** The Express response object: its status code and what was sent. *)
Record response : Type := {
  statusCode : Z;
  sent : option body
}.

Definition fresh_response : response := {| statusCode := 200; sent := None |}.

Record world : Type := {
  env : environment;
  (* module variables of redis.js *)
  redisClient : option nat;
  redisReady : bool;
  (* client objects created so far, by address *)
  heap : list client;
  (* the Redis server: value and expiry time (ms) per key, and the time *)
  keyspace : gmap string (string * Z);
  clock : Z;
  (* outcome of the coming network operations, [true] for one that fails;
     an operation beyond the end of the list succeeds *)
  outages : list bool;
  (* commands issued to the server so far, latest last *)
  wire : list command;
  console : list (level * string);
  (* response object of the request being served *)
  res : response
}.

Definition set_redisClient (v : option nat) (w : world) : world :=
  {| env := env w; redisClient := v; redisReady := redisReady w; heap := heap w;
     keyspace := keyspace w; clock := clock w; outages := outages w;
     wire := wire w; console := console w; res := res w |}.

Definition set_redisReady (v : bool) (w : world) : world :=
  {| env := env w; redisClient := redisClient w; redisReady := v; heap := heap w;
     keyspace := keyspace w; clock := clock w; outages := outages w;
     wire := wire w; console := console w; res := res w |}.

Definition set_heap (v : list client) (w : world) : world :=
  {| env := env w; redisClient := redisClient w; redisReady := redisReady w; heap := v;
     keyspace := keyspace w; clock := clock w; outages := outages w;
     wire := wire w; console := console w; res := res w |}.

Definition set_keyspace (v : gmap string (string * Z)) (w : world) : world :=
  {| env := env w; redisClient := redisClient w; redisReady := redisReady w; heap := heap w;
     keyspace := v; clock := clock w; outages := outages w;
     wire := wire w; console := console w; res := res w |}.

Definition set_clock (v : Z) (w : world) : world :=
  {| env := env w; redisClient := redisClient w; redisReady := redisReady w; heap := heap w;
     keyspace := keyspace w; clock := v; outages := outages w;
     wire := wire w; console := console w; res := res w |}.

Definition set_outages (v : list bool) (w : world) : world :=
  {| env := env w; redisClient := redisClient w; redisReady := redisReady w; heap := heap w;
     keyspace := keyspace w; clock := clock w; outages := v;
     wire := wire w; console := console w; res := res w |}.

Definition set_wire (v : list command) (w : world) : world :=
  {| env := env w; redisClient := redisClient w; redisReady := redisReady w; heap := heap w;
     keyspace := keyspace w; clock := clock w; outages := outages w;
     wire := v; console := console w; res := res w |}.

Definition set_console (v : list (level * string)) (w : world) : world :=
  {| env := env w; redisClient := redisClient w; redisReady := redisReady w; heap := heap w;
     keyspace := keyspace w; clock := clock w; outages := outages w;
     wire := wire w; console := v; res := res w |}.

Definition set_res (v : response) (w : world) : world :=
  {| env := env w; redisClient := redisClient w; redisReady := redisReady w; heap := heap w;
     keyspace := keyspace w; clock := clock w; outages := outages w;
     wire := wire w; console := console w; res := v |}.

(** ** Computations that may throw *)

Inductive completion (A : Type) : Type :=
| Normal (a : A)
| Thrown (e : js_error).
Arguments Normal {A} a.
Arguments Thrown {A} e.

Definition js (A : Type) : Type := world -> completion A * world.

Definition ret {A} (a : A) : js A := fun w => (Normal a, w).

Definition throw {A} (e : js_error) : js A := fun w => (Thrown e, w).

Definition bind {A B} (m : js A) (k : A -> js B) : js B :=
  fun w =>
    match m w with
    | (Normal a, w') => k a w'
    | (Thrown e, w') => (Thrown e, w')
    end.

(** [try { body } catch (err) { handler }] *)
Definition try_catch {A} (body : js A) (handler : js_error -> js A) : js A :=
  fun w =>
    match body w with
    | (Normal a, w') => (Normal a, w')
    | (Thrown e, w') => handler e w'
    end.

Definition modify (f : world -> world) : js unit := fun w => (Normal tt, f w).

Definition gets {A} (f : world -> A) : js A := fun w => (Normal (f w), w).

Notation "'do' x <- m ; k" := (bind m (fun x => k))
  (at level 10, x name, m at level 100, k at level 200).

(** ** Console and response object *)

Definition console_write (l : level) (msg : string) : js unit :=
  modify (fun w => set_console (console w ++ [(l, msg)]) w).

Definition console_log : string -> js unit := console_write log_.
Definition console_warn : string -> js unit := console_write warn_.
Definition console_error : string -> js unit := console_write error_.

(** [res.status(code)] *)
Definition res_status (code : Z) : js unit :=
  modify (fun w => set_res {| statusCode := code; sent := sent (res w) |} w).

(** [res.json(b)] *)
Definition res_json (b : body) : js unit :=
  modify (fun w => set_res {| statusCode := statusCode (res w); sent := Some b |} w).

(** [await new Promise((r) => setTimeout(r, ms))] *)
Definition sleep (ms : Z) : js unit :=
  modify (fun w => set_clock (clock w + ms) w).

(** ** The node-redis client *)

(** [createClient({ socket })]: a new client object, not yet connected. *)
Definition createClient (opts : socket_options) : js nat :=
  fun w =>
    (Normal (List.length (heap w)),
     set_heap (heap w ++ [{| socket := opts; listeners := []; conn := Idle |}]) w).

(** [client.on(ev, cb)] *)
Definition client_on (c : nat) (ev : event_name) (cb : callback) : js unit :=
  modify (fun w =>
    match heap w !! c with
    | Some cl =>
        set_heap (<[c := {| socket := socket cl;
                            listeners := listeners cl ++ [(ev, cb)];
                            conn := conn cl |}]> (heap w)) w
    | None => w
    end).

Definition set_conn (c : nat) (st : connection) : js unit :=
  modify (fun w =>
    match heap w !! c with
    | Some cl =>
        set_heap (<[c := {| socket := socket cl; listeners := listeners cl;
                            conn := st |}]> (heap w)) w
    | None => w
    end).

Definition event_name_eqb (a b : event_name) : bool :=
  match a, b with
  | ev_ready, ev_ready | ev_end, ev_end | ev_error, ev_error => true
  | _, _ => false
  end.

(** Bodies of the three listeners of redis.js. *)
Definition run_callback (cb : callback) (arg : option js_error) : js unit :=
  match cb with
  | on_ready =>
      do _ <- modify (set_redisReady true);
      console_log "Redis ready"
  | on_end =>
      do _ <- modify (set_redisReady false);
      console_warn "Redis connection closed"
  | on_error =>
      do _ <- modify (set_redisReady false);
      console_warn ("Redis error (ignored): " +:+ from_option message "" arg)
  end.

Fixpoint run_listeners (ls : list (event_name * callback)) (ev : event_name)
    (arg : option js_error) : js unit :=
  match ls with
  | [] => ret tt
  | (e, cb) :: rest =>
      do _ <- (if event_name_eqb e ev then run_callback cb arg else ret tt);
      run_listeners rest ev arg
  end.

(** [client.emit(ev, arg)]: the listeners registered for [ev], in order. *)
Definition emit (c : nat) (ev : event_name) (arg : option js_error) : js unit :=
  fun w =>
    match heap w !! c with
    | Some cl => run_listeners (listeners cl) ev arg w
    | None => (Normal tt, w)
    end.

(** Whether the coming network operation fails. *)
Definition next_outage : js bool :=
  fun w =>
    match outages w with
    | [] => (Normal false, w)
    | b :: rest => (Normal b, set_outages rest w)
    end.

(** Where a client goes when it loses its socket. *)
Definition after_loss (opts : socket_options) : connection :=
  if reconnectStrategy opts then Reconnecting else Closed.

Definition ECONNREFUSED : js_error := JsError "connect ECONNREFUSED".
Definition ClientClosedError : js_error := JsError "The client is closed".
Definition SocketClosedUnexpectedly : js_error := JsError "Socket closed unexpectedly".

(** [client.connect()] up to the point where its caller awaits the promise:
    the connection attempt is under way. *)
Definition connect_begin (c : nat) : js unit := set_conn c Connecting.

(** The promise of [connect] settles, after one connection attempt: the client
    emits "ready" and the promise is fulfilled, or it emits "error" and the
    promise is rejected. (The retries of a client that has a reconnect
    strategy are not modelled: the adapter creates none.) *)
Definition connect_settle (c : nat) : js unit :=
  do down <- next_outage;
  do opts <- gets (fun w => socket <$> heap w !! c);
  if down then
    do _ <- set_conn c (from_option after_loss Closed opts);
    do _ <- emit c ev_error (Some ECONNREFUSED);
    throw ECONNREFUSED
  else
    do _ <- set_conn c Open;
    emit c ev_ready None.

(** [await client.connect()], nothing else happening meanwhile. *)
Definition client_connect (c : nat) : js unit :=
  do _ <- connect_begin c;
  connect_settle c.

Definition is_open (c : nat) (w : world) : bool :=
  match heap w !! c with
  | Some cl => match conn cl with Open => true | _ => false end
  | None => false
  end.

(** The value of a key at the server's present time: an entry is gone once
    the clock has passed its expiry time. *)
Definition live (key : string) (w : world) : option string :=
  match keyspace w !! key with
  | Some (v, expiry) => if (clock w <=? expiry)%Z then Some v else None
  | None => None
  end.

(** Sending a command: it is rejected when the client has no open socket or the
    network fails it. *)
Definition dispatch (c : nat) (cmd : command) : js unit :=
  do _ <- modify (fun w => set_wire (wire w ++ [cmd]) w);
  do up <- gets (is_open c);
  if negb up then throw ClientClosedError
  else
    do down <- next_outage;
    if down then throw SocketClosedUnexpectedly else ret tt.

(** [await client.get(key)]: the string stored under [key], or null. *)
Definition client_get (c : nat) (key : string) : js (option string) :=
  do _ <- dispatch c (GET key);
  gets (live key).

(** [await client.setEx(key, seconds, value)] *)
Definition client_setEx (c : nat) (key : string) (seconds : Z) (value : string)
    : js unit :=
  do _ <- dispatch c (SETEX key seconds value);
  modify (fun w =>
    set_keyspace (<[key := (value, clock w + 1000 * seconds)]> (keyspace w)) w).

(** ** backend/src/config/redis.js *)

(** [process.env.REDIS_ENABLED !== "true"] *)
Definition not_true (v : option string) : bool :=
  match v with
  | Some s => negb (String.eqb s "true")
  | None => true
  end.

Definition connectRedis : js (option nat) :=
  do enabled <- gets (fun w => REDIS_ENABLED (env w));
  if not_true enabled then
    do _ <- console_log "Redis disabled via env";
    ret None
  else
    try_catch
      (do e <- gets env;
       do c <- createClient {| host := REDIS_HOST e;
                               port := REDIS_PORT e;
                               reconnectStrategy := false |};
       do _ <- modify (set_redisClient (Some c));
       do _ <- client_on c ev_ready on_ready;
       do _ <- client_on c ev_end on_end;
       do _ <- client_on c ev_error on_error;
       do _ <- client_connect c;
       gets redisClient)
      (fun err =>
         do _ <- console_warn "Redis unavailable at startup";
         do _ <- modify (set_redisClient None);
         do _ <- modify (set_redisReady false);
         ret None).

(** [connectRedis] cut at its [await], for a process in which other things
    happen while the promise of [connect] is pending: lines 13 to 36 up to the
    call of [connect], and the rest of the function from the moment the
    promise settles. *)
Definition connectRedis_setup : js nat :=
  do e <- gets env;
  do c <- createClient {| host := REDIS_HOST e;
                          port := REDIS_PORT e;
                          reconnectStrategy := false |};
  do _ <- modify (set_redisClient (Some c));
  do _ <- client_on c ev_ready on_ready;
  do _ <- client_on c ev_end on_end;
  do _ <- client_on c ev_error on_error;
  do _ <- connect_begin c;
  ret c.

Definition connectRedis_resume (c : nat) : js (option nat) :=
  try_catch
    (do _ <- connect_settle c;
     gets redisClient)
    (fun err =>
       do _ <- console_warn "Redis unavailable at startup";
       do _ <- modify (set_redisClient None);
       do _ <- modify (set_redisReady false);
       ret None).

Definition getRedisClient (w : world) : option nat :=
  match redisClient w with
  | None => None
  | Some c => if negb (redisReady w) then None else Some c
  end.

(** ** backend/src/routes/products.js *)

(** The static list of the route. *)
Definition products : json :=
  JArray [ JObject [("id", JNumber 1); ("name", JString "Laptop")];
           JObject [("id", JNumber 2); ("name", JString "Phone")] ].

(** [if (cached)]: null and the empty string are falsy. *)
Definition truthy (cached : option string) : bool :=
  match cached with
  | None => false
  | Some s => negb (String.eqb s "")
  end.

Section Route.
Context `{J : JSON}.

(** [JSON.parse(text)] as a call that may throw. *)
Definition parse (text : string) : js json :=
  match JSON_parse text with
  | Some v => ret v
  | None => throw (JsError "Unexpected token in JSON")
  end.

(** Lines 11 to 23: the guarded cache read. The result tells whether the
    handler has answered and returned. *)
Definition cache_read (redis : option nat) (cacheKey : string) : js bool :=
  match redis with
  | Some r =>
      try_catch
        (do cached <- client_get r cacheKey;
         if truthy cached then
           do data <- parse (default "" cached);
           do _ <- res_json (Payload "cache" data);
           ret true
         else ret false)
        (fun err =>
           do _ <- console_warn "Redis read failed, skipping cache";
           ret false)
  | None => ret false
  end.

(** Lines 33 to 40: the guarded cache write. *)
Definition cache_write (redis : option nat) (cacheKey : string) (value : json)
    : js unit :=
  match redis with
  | Some r =>
      try_catch
        (client_setEx r cacheKey 60 (JSON_stringify value))
        (fun err => console_warn "Redis write failed")
  | None => ret tt
  end.

(** The handler with lines 25 to 31, which produce the list, taken as
    [source]. *)
Definition route_from (source : js json) : js unit :=
  do redis <- gets getRedisClient;
  let cacheKey := "products:all" in
  try_catch
    (do answered <- cache_read redis cacheKey;
     if answered then ret tt
     else
       do data <- source;
       do _ <- cache_write redis cacheKey data;
       res_json (Payload "db" data))
    (fun err =>
       do _ <- console_error ("Route failure: " +:+ message err);
       do _ <- res_status 500;
       res_json (Failure "Internal server error")).

(** Lines 25 to 31: the simulated database. *)
Definition simulated_db : js json :=
  do _ <- sleep 1500;
  ret products.

(** [router.get("/", ...)] *)
Definition route : js unit := route_from simulated_db.

End Route.

(** ** The process *)

Section Process.
Context `{J : JSON}.

(** The process as it starts, against a server holding [ks] at time [now]. *)
Definition boot (e : environment) (ks : gmap string (string * Z)) (now : Z)
    : world :=
  {| env := e; redisClient := None; redisReady := false; heap := [];
     keyspace := ks; clock := now; outages := []; wire := []; console := [];
     res := fresh_response |}.

(** backend/src/app.js lines 11 to 17, nothing else happening meanwhile. *)
Definition app_startup : js unit :=
  try_catch
    (do _ <- connectRedis; ret tt)
    (fun error => console_error ("Failed to connect to Redis: " +:+ message error)).

(** The process when app.js has run and the event loop takes over:
    [connectRedis] has returned (cache disabled) or awaits the promise of
    [connect]. *)
Definition launch (e : environment) (ks : gmap string (string * Z)) (now : Z)
    : world :=
  if not_true (REDIS_ENABLED e) then snd (app_startup (boot e ks now))
  else snd (connectRedis_setup (boot e ks now)).

Definition conn_of (c : nat) (w : world) : option connection :=
  conn <$> heap w !! c.

(** The promise of [connect] settles, [refused] telling whether the server
    turned the attempt down, and [connectRedis] resumes, within the try of
    app.js. *)
Definition settle (refused : bool) : js unit :=
  do pending <- gets redisClient;
  match pending with
  | None => ret tt
  | Some c =>
      do st <- gets (conn_of c);
      match st with
      | Some Connecting =>
          do _ <- modify (set_outages [refused]);
          try_catch
            (do _ <- connectRedis_resume c; ret tt)
            (fun error =>
               console_error ("Failed to connect to Redis: " +:+ message error))
      | _ => ret tt
      end
  end.

(** The process once the connection attempt has settled, nothing else having
    happened meanwhile. *)
Definition start (e : environment) (ks : gmap string (string * Z)) (now : Z)
    (refused : bool) : world :=
  snd (settle refused (launch e ks now)).

(** What happens to the running process: the connection attempt settles; a
    client's socket fails, is closed, or comes back (a client with a
    reconnect strategy only); time passes; a request for the product list
    arrives, [faults] giving the outcome of the commands it will issue. A
    request is served without another event in between. *)
Inductive event : Type :=
| ConnectSettled (refused : bool)
| SocketError (c : nat) (e : js_error)
| SocketEnd (c : nat)
| Reconnected (c : nat)
| Elapse (ms : N)
| Request (faults : list bool).

(** The client reports a socket error: it emits "error" and, when it was
    connected, has lost its socket. *)
Definition socket_error (c : nat) (e : js_error) : js unit :=
  do cl <- gets (fun w => heap w !! c);
  match cl with
  | None => ret tt
  | Some cl =>
      do _ <- match conn cl with
              | Open => set_conn c (after_loss (socket cl))
              | _ => ret tt
              end;
      emit c ev_error (Some e)
  end.

(** The client's connection is closed for good: it emits "end". *)
Definition socket_end (c : nat) : js unit :=
  do cl <- gets (fun w => heap w !! c);
  match cl with
  | None => ret tt
  | Some cl =>
      do _ <- set_conn c Closed;
      emit c ev_end None
  end.

(** A reconnecting client gets its socket back: it emits "ready". *)
Definition reconnected (c : nat) : js unit :=
  do st <- gets (conn_of c);
  match st with
  | Some Reconnecting =>
      do _ <- set_conn c Open;
      emit c ev_ready None
  | _ => ret tt
  end.

(** A request: Express hands the handler a fresh response object. *)
Definition serve_from (source : js json) (faults : list bool) : js unit :=
  do _ <- modify (set_outages faults);
  do _ <- modify (set_res fresh_response);
  route_from source.

Definition serve : list bool -> js unit := serve_from simulated_db.

Definition fire (ev : event) (w : world) : world :=
  match ev with
  | ConnectSettled refused => snd (settle refused w)
  | SocketError c e => snd (socket_error c e w)
  | SocketEnd c => snd (socket_end c w)
  | Reconnected c => snd (reconnected c w)
  | Elapse ms => set_clock (clock w + Z.of_N ms) w
  | Request faults => snd (serve faults w)
  end.

Fixpoint run (evs : list event) (w : world) : world :=
  match evs with
  | [] => w
  | ev :: rest => run rest (fire ev w)
  end.

(** The responses given along a run, in order. *)
Fixpoint responses (evs : list event) (w : world) : list response :=
  match evs with
  | [] => []
  | Request faults :: rest =>
      res (fire (Request faults) w) :: responses rest (fire (Request faults) w)
  | ev :: rest => responses rest (fire ev w)
  end.

End Process.

(** ** A [JSON] object *)

(** Compact JSON text as [JSON.stringify] writes it, and a reader of JSON text
    whose numbers are integers and whose [\u] escapes stay within ASCII. *)
Module Text.

Definition dquote : ascii := "034"%char.
Definition backslash : ascii := "092"%char.

Definition hex_digit (n : N) : ascii :=
  ascii_of_N (if (n <? 10)%N then 48 + n else 87 + n)%N.

Definition escape_char (c : ascii) : string :=
  let n := N_of_ascii c in
  if Ascii.eqb c dquote then String backslash (String dquote EmptyString)
  else if Ascii.eqb c backslash then String backslash (String backslash EmptyString)
  else if (n =? 8)%N then String backslash "b"
  else if (n =? 12)%N then String backslash "f"
  else if (n =? 10)%N then String backslash "n"
  else if (n =? 13)%N then String backslash "r"
  else if (n =? 9)%N then String backslash "t"
  else if (n <? 32)%N then
    String backslash
      ("u00" +:+ String (hex_digit (n / 16))
                   (String (hex_digit (n mod 16)) EmptyString))
  else String c EmptyString.

Fixpoint escape (s : string) : string :=
  match s with
  | EmptyString => EmptyString
  | String c rest => escape_char c +:+ escape rest
  end.

Definition quote (s : string) : string :=
  String dquote (escape s +:+ String dquote EmptyString).

Fixpoint digits_of (fuel : nat) (n : N) (acc : string) : string :=
  match fuel with
  | O => acc
  | S fuel =>
      let acc := String (ascii_of_N (48 + n mod 10)) acc in
      if (n <? 10)%N then acc else digits_of fuel (n / 10)%N acc
  end.

Definition number (n : Z) : string :=
  let d := digits_of (S (N.to_nat (N.log2 (Z.abs_N n)))) (Z.abs_N n) EmptyString in
  if (n <? 0)%Z then String "-" d else d.

Fixpoint join (sep : string) (parts : list string) : string :=
  match parts with
  | [] => EmptyString
  | [p] => p
  | p :: rest => p +:+ sep +:+ join sep rest
  end.

Fixpoint stringify (v : json) : string :=
  match v with
  | JNull => "null"
  | JBool true => "true"
  | JBool false => "false"
  | JNumber n => number n
  | JString s => quote s
  | JArray items => "[" +:+ join "," (map stringify items) +:+ "]"
  | JObject fields =>
      "{" +:+ join ","
                (map (fun kv => quote (fst kv) +:+ ":" +:+ stringify (snd kv)) fields)
          +:+ "}"
  end.

Definition is_ws (c : ascii) : bool :=
  let n := N_of_ascii c in
  ((n =? 32) || (n =? 9) || (n =? 10) || (n =? 13))%N.

Fixpoint skip_ws (s : string) : string :=
  match s with
  | String c rest => if is_ws c then skip_ws rest else s
  | EmptyString => s
  end.

Definition digit_val (c : ascii) : option N :=
  let n := N_of_ascii c in
  if ((48 <=? n) && (n <=? 57))%N then Some (n - 48)%N else None.

Definition hex_val (c : ascii) : option N :=
  let n := N_of_ascii c in
  if ((48 <=? n) && (n <=? 57))%N then Some (n - 48)%N
  else if ((97 <=? n) && (n <=? 102))%N then Some (n - 87)%N
  else if ((65 <=? n) && (n <=? 70))%N then Some (n - 55)%N
  else None.

Fixpoint read_digits (s : string) (acc : N) : N * string :=
  match s with
  | String c rest =>
      match digit_val c with
      | Some d => read_digits rest (10 * acc + d)%N
      | None => (acc, s)
      end
  | EmptyString => (acc, s)
  end.

(** A fraction or an exponent would follow. *)
Definition continues_number (s : string) : bool :=
  match s with
  | String c _ => Ascii.eqb c "." || Ascii.eqb c "e" || Ascii.eqb c "E"
  | EmptyString => false
  end.

Definition read_unsigned (s : string) : option (N * string) :=
  match s with
  | String c rest =>
      match digit_val c with
      | Some d =>
          let '(n, rest') := if (d =? 0)%N then (0%N, rest) else read_digits rest d in
          if continues_number rest' then None else Some (n, rest')
      | None => None
      end
  | EmptyString => None
  end.

Definition read_number (s : string) : option (Z * string) :=
  match s with
  | String c rest =>
      if Ascii.eqb c "-" then
        match read_unsigned rest with
        | Some (n, rest') => Some (- Z.of_N n, rest')
        | None => None
        end
      else
        match read_unsigned s with
        | Some (n, rest') => Some (Z.of_N n, rest')
        | None => None
        end
  | EmptyString => None
  end.

Definition unescape (c : ascii) : option ascii :=
  if Ascii.eqb c dquote then Some dquote
  else if Ascii.eqb c backslash then Some backslash
  else if Ascii.eqb c "/" then Some "/"%char
  else if Ascii.eqb c "b" then Some (ascii_of_N 8)
  else if Ascii.eqb c "f" then Some (ascii_of_N 12)
  else if Ascii.eqb c "n" then Some (ascii_of_N 10)
  else if Ascii.eqb c "r" then Some (ascii_of_N 13)
  else if Ascii.eqb c "t" then Some (ascii_of_N 9)
  else None.

Definition code_unit (h1 h2 h3 h4 : ascii) : option ascii :=
  match hex_val h1, hex_val h2, hex_val h3, hex_val h4 with
  | Some a, Some b, Some c, Some d =>
      let n := (((a * 16 + b) * 16 + c) * 16 + d)%N in
      if (n <? 128)%N then Some (ascii_of_N n) else None
  | _, _, _, _ => None
  end.

(** The rest of a string literal, after its opening quote. *)
Fixpoint read_string (s : string) (acc : string) : option (string * string) :=
  match s with
  | EmptyString => None
  | String c rest =>
      if Ascii.eqb c dquote then Some (acc, rest)
      else if Ascii.eqb c backslash then
        match rest with
        | String e rest' =>
            if Ascii.eqb e "u" then
              match rest' with
              | String h1 (String h2 (String h3 (String h4 rest''))) =>
                  match code_unit h1 h2 h3 h4 with
                  | Some ch => read_string rest'' (acc +:+ String ch EmptyString)
                  | None => None
                  end
              | _ => None
              end
            else
              match unescape e with
              | Some ch => read_string rest' (acc +:+ String ch EmptyString)
              | None => None
              end
        | EmptyString => None
        end
      else if (N_of_ascii c <? 32)%N then None
      else read_string rest (acc +:+ String c EmptyString)
  end.

Fixpoint strip (p s : string) : option string :=
  match p, s with
  | EmptyString, _ => Some s
  | String a p', String b s' => if Ascii.eqb a b then strip p' s' else None
  | String _ _, EmptyString => None
  end.

(** A later field of the same name replaces the earlier one. *)
Fixpoint put (k : string) (v : json) (fields : list (string * json))
    : list (string * json) :=
  match fields with
  | [] => [(k, v)]
  | (k', v') :: rest =>
      if String.eqb k k' then (k, v) :: rest else (k', v') :: put k v rest
  end.

Fixpoint read_value (fuel : nat) (s : string) {struct fuel}
    : option (json * string) :=
  match fuel with
  | O => None
  | S fuel =>
      match skip_ws s with
      | EmptyString => None
      | String c rest =>
          if Ascii.eqb c "[" then
            match skip_ws rest with
            | String c' rest' =>
                if Ascii.eqb c' "]" then Some (JArray [], rest')
                else read_items fuel rest []
            | EmptyString => None
            end
          else if Ascii.eqb c "{" then
            match skip_ws rest with
            | String c' rest' =>
                if Ascii.eqb c' "}" then Some (JObject [], rest')
                else read_fields fuel rest []
            | EmptyString => None
            end
          else if Ascii.eqb c dquote then
            match read_string rest EmptyString with
            | Some (str, rest') => Some (JString str, rest')
            | None => None
            end
          else if Ascii.eqb c "n" then
            option_map (pair JNull) (strip "ull" rest)
          else if Ascii.eqb c "t" then
            option_map (pair (JBool true)) (strip "rue" rest)
          else if Ascii.eqb c "f" then
            option_map (pair (JBool false)) (strip "alse" rest)
          else
            match read_number (String c rest) with
            | Some (n, rest') => Some (JNumber n, rest')
            | None => None
            end
      end
  end
with read_items (fuel : nat) (s : string) (acc : list json) {struct fuel}
    : option (json * string) :=
  match fuel with
  | O => None
  | S fuel =>
      match read_value fuel s with
      | Some (v, rest) =>
          match skip_ws rest with
          | String c rest' =>
              if Ascii.eqb c "," then read_items fuel rest' (acc ++ [v])
              else if Ascii.eqb c "]" then Some (JArray (acc ++ [v]), rest')
              else None
          | EmptyString => None
          end
      | None => None
      end
  end
with read_fields (fuel : nat) (s : string) (acc : list (string * json))
    {struct fuel} : option (json * string) :=
  match fuel with
  | O => None
  | S fuel =>
      match skip_ws s with
      | String q rest =>
          if Ascii.eqb q dquote then
            match read_string rest EmptyString with
            | Some (k, rest1) =>
                match skip_ws rest1 with
                | String colon rest2 =>
                    if Ascii.eqb colon ":" then
                      match read_value fuel rest2 with
                      | Some (v, rest3) =>
                          match skip_ws rest3 with
                          | String c rest4 =>
                              if Ascii.eqb c "," then read_fields fuel rest4 (put k v acc)
                              else if Ascii.eqb c "}" then Some (JObject (put k v acc), rest4)
                              else None
                          | EmptyString => None
                          end
                      | None => None
                      end
                    else None
                | EmptyString => None
                end
            | None => None
            end
          else None
      | EmptyString => None
      end
  end.

(** The whole text is one value, white space around it allowed. *)
Definition parse (s : string) : option json :=
  match read_value (2 * String.length s + 2) s with
  | Some (v, rest) =>
      match skip_ws rest with
      | EmptyString => Some v
      | String _ _ => None
      end
  | None => None
  end.

End Text.

#[export] Instance text_JSON : JSON :=
  {| JSON_parse := Text.parse; JSON_stringify := Text.stringify |}.

(** ** backend/src/app.js, the routes without a cache *)

Module App.

(** The mock user data. *)
Definition users : list json :=
  [ JObject [("id", JNumber 1); ("name", JString "John Doe");
             ("email", JString "john@example.com"); ("role", JString "Developer")];
    JObject [("id", JNumber 2); ("name", JString "Jane Smith");
             ("email", JString "jane@example.com"); ("role", JString "Designer")];
    JObject [("id", JNumber 3); ("name", JString "Bob Johnson");
             ("email", JString "bob@example.com"); ("role", JString "Manager")];
    JObject [("id", JNumber 4); ("name", JString "Alice Williams");
             ("email", JString "alice@example.com"); ("role", JString "Developer")];
    JObject [("id", JNumber 5); ("name", JString "Charlie Brown");
             ("email", JString "charlie@example.com"); ("role", JString "DevOps")] ].

(** [app.get("/health", ...)]: the status and the body it sends. *)
Definition health : Z * json :=
  (200, JObject [("status", JString "ok"); ("message", JString "Backend is healthy")]).

(** [app.get("/api/users", ...)] over the list it closes on. *)
Definition users_route_over (us : list json) : Z * json :=
  (200, JObject [("success", JBool true);
                 ("count", JNumber (Z.of_nat (List.length us)));
                 ("data", JArray us)]).

Definition users_route : Z * json := users_route_over users.

End App.

(** ** frontend/src/pages/Users.jsx *)

Module UsersPage.

(** What [await response.json()] gives. *)
Inductive json_outcome : Type :=
| JsonValue (data : json)
| JsonRejected (err : js_error).

(** What [await fetch('/api/users', ...)] gives: a rejection, or a response,
    of which the page looks at [ok] and calls [json()]. *)
Inductive fetch_outcome : Type :=
| FetchRejected (err : js_error)
| FetchResponse (ok : bool) (body : json_outcome).

(** The three [useState] cells; [users] may come to hold undefined ([None]),
    [error] is null ([None]) or a message. *)
Record state : Type := {
  users : option json;
  loading : bool;
  error : option string
}.

Definition initial : state :=
  {| users := Some (JArray []); loading := true; error := None |}.

Definition setUsers (v : option json) (s : state) : state :=
  {| users := v; loading := loading s; error := error s |}.

Definition setLoading (v : bool) (s : state) : state :=
  {| users := users s; loading := v; error := error s |}.

Definition setError (v : option string) (s : state) : state :=
  {| users := users s; loading := loading s; error := v |}.

(** The field [k] of an object, the last one of that name. *)
Fixpoint field (k : string) (fields : list (string * json)) : option json :=
  match fields with
  | [] => None
  | (k', v) :: rest =>
      match field k rest with
      | Some v' => Some v'
      | None => if String.eqb k' k then Some v else None
      end
  end.

(** [v.k] for a value out of [JSON.parse] and a name [k] that is neither an
    index nor "length": undefined unless [v] is an object with the field, and
    a TypeError when [v] is null. *)
Definition get (v : json) (k : string) : completion (option json) :=
  match v with
  | JNull => Thrown (JsError ("Cannot read properties of null (reading '" +:+ k +:+ "')"))
  | JObject fields => Normal (field k fields)
  | _ => Normal None
  end.

(** [fetchUsers], given what [fetch] and [json()] come to. *)
Definition fetchUsers (out : fetch_outcome) (s : state) : state :=
  let attempt : completion state :=
    match out with
    | FetchRejected err => Thrown err
    | FetchResponse ok body =>
        if negb ok then Thrown (JsError "Failed to fetch users")
        else
          match body with
          | JsonRejected err => Thrown err
          | JsonValue data =>
              match get data "data" with
              | Thrown err => Thrown err
              | Normal d => Normal (setLoading false (setUsers d s))
              end
          end
    end in
  match attempt with
  | Normal s' => s'
  | Thrown err => setLoading false (setError (Some (message err)) s)
  end.

(** One card of the grid: the values read off a user, [key] included. *)
Record card : Type := {
  key : option json;
  name : option json;
  email : option json;
  id : option json;
  role : option json
}.

Inductive view : Type :=
| LoadingView
| ErrorView (msg : string)
| Directory (cards : list card)
| RenderError (err : js_error).

(** The body of [users.map((user) => ...)]. *)
Definition user_card (user : json) : completion card :=
  match get user "id", get user "name", get user "email", get user "role" with
  | Normal i, Normal n, Normal m, Normal r =>
      Normal {| key := i; name := n; email := m; id := i; role := r |}
  | Thrown err, _, _, _ | _, Thrown err, _, _
  | _, _, Thrown err, _ | _, _, _, Thrown err => Thrown err
  end.

Fixpoint user_cards (items : list json) : completion (list card) :=
  match items with
  | [] => Normal []
  | user :: rest =>
      match user_card user with
      | Thrown err => Thrown err
      | Normal c =>
          match user_cards rest with
          | Thrown err => Thrown err
          | Normal cs => Normal (c :: cs)
          end
      end
  end.

(** Whether React mounts a value put between tags: strings and numbers are
    shown, booleans, null and undefined show nothing, an array shows its
    elements, and an object is refused ("Objects are not valid as a React
    child"). *)
Fixpoint child (v : json) : bool :=
  match v with
  | JObject _ => false
  | JArray items => forallb child items
  | _ => true
  end.

Definition child_or_undefined (v : option json) : bool :=
  match v with
  | Some v => child v
  | None => true
  end.

(** The four values a card puts between tags; [key] is an attribute. *)
Definition card_ok (c : card) : bool :=
  child_or_undefined (name c) && child_or_undefined (email c)
  && child_or_undefined (id c) && child_or_undefined (role c).

(** [if (error)]: null and the empty string are falsy. *)
Definition shown_error (e : option string) : option string :=
  match e with
  | Some msg => if String.eqb msg "" then None else Some msg
  | None => None
  end.

(** The component, as a function of its state. *)
Definition Users (s : state) : view :=
  if loading s then LoadingView
  else
    match shown_error (error s) with
    | Some msg => ErrorView msg
    | None =>
        match users s with
        | Some (JArray items) =>
            match user_cards items with
            | Normal cs =>
                if forallb card_ok cs then Directory cs
                else RenderError (JsError "Objects are not valid as a React child")
            | Thrown err => RenderError err
            end
        | Some JNull =>
            RenderError (JsError "Cannot read properties of null (reading 'map')")
        | None =>
            RenderError (JsError "Cannot read properties of undefined (reading 'map')")
        | Some _ => RenderError (JsError "users.map is not a function")
        end
    end.

(** The card of a user that is not null. *)
Definition shown (user : json) : card :=
  let read k := match user with JObject fields => field k fields | _ => None end in
  {| key := read "id"; name := read "name"; email := read "email";
     id := read "id"; role := read "role" |}.

(** A user the grid can show: not null, and none of the four values it
    displays is an object. *)
Definition displayable (user : json) : Prop :=
  user <> JNull /\ card_ok (shown user) = true.

(** What the page shows once the fetch started on mount has settled. *)
Definition page (out : fetch_outcome) : view := Users (fetchUsers out initial).

(** The browser's view of what an Express handler sent with
    [res.status(code).json(body)]. *)
Definition http `{J : JSON} (sent : Z * json) : fetch_outcome :=
  FetchResponse
    ((200 <=? fst sent)%Z && (fst sent <=? 299)%Z)
    (match JSON_parse (JSON_stringify (snd sent)) with
     | Some v => JsonValue v
     | None => JsonRejected (JsError "Unexpected token in JSON")
     end).

End UsersPage.

(** ** Vocabulary of the statements *)

Definition cacheKey : string := "products:all".

Definition reply (code : Z) (b : body) : response :=
  {| statusCode := code; sent := Some b |}.

Definition read_warning : level * string :=
  (warn_, "Redis read failed, skipping cache").

Definition write_warning : level * string := (warn_, "Redis write failed").

(** The world once the coming network operation has had its outcome. *)
Definition pop_outage (w : world) : world :=
  match outages w with
  | [] => w
  | _ :: rest => set_outages rest w
  end.

(** The module variables of redis.js, the client objects and the environment
    are the same in two worlds. *)
Definition same_adapter (w' w : world) : Prop :=
  env w' = env w /\ redisClient w' = redisClient w
  /\ redisReady w' = redisReady w /\ heap w' = heap w.

(** The socket options [connectRedis] passes to [createClient]. *)
Definition options_of (e : environment) : socket_options :=
  {| host := REDIS_HOST e; port := REDIS_PORT e; reconnectStrategy := false |}.

(** The adapter's client object, with its three listeners. *)
Definition the_client (e : environment) (st : connection) : client :=
  {| socket := options_of e;
     listeners := [(ev_ready, on_ready); (ev_end, on_end); (ev_error, on_error)];
     conn := st |}.

(** The states of the adapter once app.js has run. *)
Inductive adapter_state : Type := Disabled | Pending | Ready | Failed.

Definition in_state (st : adapter_state) (w : world) : Prop :=
  match st with
  | Disabled => redisClient w = None /\ redisReady w = false /\ heap w = []
  | Pending =>
      redisClient w = Some 0%nat /\ redisReady w = false
      /\ heap w = [the_client (env w) Connecting]
  | Ready =>
      redisClient w = Some 0%nat /\ redisReady w = true
      /\ heap w = [the_client (env w) Open]
  | Failed =>
      (redisClient w = None \/ redisClient w = Some 0%nat) /\ redisReady w = false
      /\ heap w = [the_client (env w) Closed]
  end.

(** The state in which app.js leaves the adapter. *)
Definition launch_state (e : environment) : adapter_state :=
  if not_true (REDIS_ENABLED e) then Disabled else Pending.

(** The state of the adapter when the connection attempt has settled. *)
Definition initial_state (e : environment) (refused : bool) : adapter_state :=
  if not_true (REDIS_ENABLED e) then Disabled
  else if refused then Failed else Ready.

(** The adapter's transitions: from [Pending] to [Ready] or [Failed] as the
    connection attempt settles or the socket is closed, and from [Ready] to
    [Failed] when the socket of its client fails or is closed. *)
Definition after (st : adapter_state) (ev : event) : adapter_state :=
  match st, ev with
  | Pending, ConnectSettled false => Ready
  | Pending, ConnectSettled true => Failed
  | Pending, SocketEnd O => Failed
  | Ready, SocketError O _ => Failed
  | Ready, SocketEnd O => Failed
  | _, _ => st
  end.

(** The states without a usable connection that the adapter never leaves. *)
Definition down (st : adapter_state) : bool :=
  match st with
  | Disabled | Failed => true
  | Pending | Ready => false
  end.



(** The key is absent or holds the serialized list. *)
Definition holds_products (w : world) : Prop :=
  keyspace w !! cacheKey = None
  \/ exists expiry, keyspace w !! cacheKey = Some (Text.stringify products, expiry).

(** The commands the handler may issue. *)
Definition products_command `{J : JSON} (cmd : command) : Prop :=
  cmd = GET cacheKey \/ cmd = SETEX cacheKey 60 (JSON_stringify products).

(** ** Sample worlds *)

Definition env_on : environment :=
  {| REDIS_ENABLED := Some "true"; REDIS_HOST := Some "redis";
     REDIS_PORT := Some "6379" |}.


(** The cache is up and was filled by a first request. *)
Definition warm : world := @run text_JSON [Request []] (start env_on ∅ 0 false).

Definition warm_read : world := snd (client_get 0 cacheKey warm).

(** The cache is up and holds text that is not JSON under the key. *)
Definition corrupted : world :=
  start env_on {[ cacheKey := ("<html>", 5000) ]} 0 false.

(** The cache is up and holds the empty string under the key. *)
Definition blanked : world := start env_on {[ cacheKey := ("", 5000) ]} 0 false.

(** The cache is up and empty; the read will go through, the write will not. *)
Definition write_down : world := set_outages [false; true] (start env_on ∅ 0 false).

Definition write_down_read : world :=
  snd (@cache_read text_JSON (Some 0%nat) cacheKey write_down).

(** The cache is up; the read of the coming request will fail. *)
Definition read_down : world := set_outages [true] (start env_on ∅ 0 false).

Definition read_down_after : world := snd (client_get 0 cacheKey read_down).

(** * Properties *)

(** ** Frame facts *)

Lemma next_outage_spec (w : world) :
  next_outage w = (Normal (hd false (outages w)), pop_outage w).
Proof. unfold next_outage, pop_outage. destruct (outages w); reflexivity. Qed.

Lemma pop_outage_outages (w : world) : outages (pop_outage w) = tl (outages w).
Proof. unfold pop_outage. destruct (outages w) eqn:E; [rewrite E|]; reflexivity. Qed.

Ltac pop_frame := intros; unfold pop_outage; destruct (outages _); reflexivity.

Lemma pop_outage_env w : env (pop_outage w) = env w.
Proof. pop_frame. Qed.
Lemma pop_outage_redisClient w : redisClient (pop_outage w) = redisClient w.
Proof. pop_frame. Qed.
Lemma pop_outage_redisReady w : redisReady (pop_outage w) = redisReady w.
Proof. pop_frame. Qed.
Lemma pop_outage_heap w : heap (pop_outage w) = heap w.
Proof. pop_frame. Qed.
Lemma pop_outage_keyspace w : keyspace (pop_outage w) = keyspace w.
Proof. pop_frame. Qed.
Lemma pop_outage_clock w : clock (pop_outage w) = clock w.
Proof. pop_frame. Qed.
Lemma pop_outage_wire w : wire (pop_outage w) = wire w.
Proof. pop_frame. Qed.
Lemma pop_outage_console w : console (pop_outage w) = console w.
Proof. pop_frame. Qed.
Lemma pop_outage_res w : res (pop_outage w) = res w.
Proof. pop_frame. Qed.

Create Rewrite HintDb world.
#[export] Hint Rewrite pop_outage_outages pop_outage_env pop_outage_redisClient
  pop_outage_redisReady pop_outage_heap pop_outage_keyspace pop_outage_clock
  pop_outage_wire pop_outage_console pop_outage_res : world.

Ltac frame :=
  unfold same_adapter; cbn; autorewrite with world; cbn; repeat split;
  try reflexivity.

Lemma same_adapter_refl w : same_adapter w w.
Proof. repeat split. Qed.

Lemma same_adapter_trans w1 w2 w3 :
  same_adapter w1 w2 -> same_adapter w2 w3 -> same_adapter w1 w3.
Proof.
  intros (a & b & c & d) (a' & b' & c' & d').
  repeat split; congruence.
Qed.

Lemma same_adapter_getRedisClient w' w :
  same_adapter w' w -> getRedisClient w' = getRedisClient w.
Proof.
  intros (_ & Hc & Hr & _). unfold getRedisClient. rewrite Hc, Hr. reflexivity.
Qed.

Lemma is_open_frame (c : nat) (w w' : world) :
  heap w' = heap w -> is_open c w' = is_open c w.
Proof. unfold is_open. intros ->. reflexivity. Qed.

Lemma truthy_Some (text : string) : text <> "" -> truthy (Some text) = true.
Proof.
  intros Hne. unfold truthy.
  destruct (String.eqb text "") eqn:E; [|reflexivity].
  apply String.eqb_eq in E. contradiction.
Qed.

(** ** The client's commands *)

(** What [dispatch] does, by cases on the client's socket and the network. *)
Lemma dispatch_spec (c : nat) (cmd : command) (w : world) :
  dispatch c cmd w =
    let w1 := set_wire (wire w ++ [cmd]) w in
    if is_open c w then
      (if hd false (outages w) then Thrown SocketClosedUnexpectedly else Normal tt,
       pop_outage w1)
    else (Thrown ClientClosedError, w1).
Proof.
  unfold dispatch, bind, modify, gets, throw, ret, next_outage, pop_outage. cbn.
  change (is_open c (set_wire (wire w ++ [cmd]) w)) with (is_open c w).
  destruct (is_open c w); cbn; [|reflexivity].
  destruct (outages w) as [|[] rest]; reflexivity.
Qed.

Lemma client_get_spec (c : nat) (key : string) (w : world) :
  client_get c key w =
    let w1 := set_wire (wire w ++ [GET key]) w in
    if is_open c w then
      (if hd false (outages w) then Thrown SocketClosedUnexpectedly
       else Normal (live key w),
       pop_outage w1)
    else (Thrown ClientClosedError, w1).
Proof.
  unfold client_get, bind. rewrite dispatch_spec. cbn.
  destruct (is_open c w); [|reflexivity].
  unfold pop_outage. cbn. destruct (outages w) as [|[] rest]; reflexivity.
Qed.

Lemma client_setEx_spec (c : nat) (key : string) (seconds : Z) (value : string)
    (w : world) :
  client_setEx c key seconds value w =
    let w1 := set_wire (wire w ++ [SETEX key seconds value]) w in
    if is_open c w then
      if hd false (outages w) then (Thrown SocketClosedUnexpectedly, pop_outage w1)
      else
        (Normal tt,
         set_keyspace (<[key := (value, clock w + 1000 * seconds)]> (keyspace w))
           (pop_outage w1))
    else (Thrown ClientClosedError, w1).
Proof.
  unfold client_setEx, bind. rewrite dispatch_spec. cbn.
  destruct (is_open c w); [|reflexivity].
  unfold pop_outage. cbn. destruct (outages w) as [|[] rest]; reflexivity.
Qed.

(** ** The handler, one request at a time *)

Section Handler.
Context `{J : JSON}.

(** The guarded read: it never throws; it has answered from the cache or has
    left the response object alone; it touches neither the adapter nor the
    key space nor the clock. *)
Lemma cache_read_cases (redis : option nat) (w : world) :
  exists b w1,
    cache_read redis cacheKey w = (Normal b, w1)
    /\ same_adapter w1 w /\ keyspace w1 = keyspace w /\ clock w1 = clock w
    /\ (if b then exists v, res w1 = reply (statusCode (res w)) (Payload "cache" v)
        else res w1 = res w).
Proof.
  destruct redis as [r|]; cbn.
  2:{ exists false, w. repeat split. }
  unfold try_catch, bind. rewrite client_get_spec. cbn zeta.
  destruct (is_open r w).
  2:{ cbn. eexists _, _. split; [reflexivity|]. frame. }
  destruct (hd false (outages w)).
  { cbn. eexists _, _. split; [reflexivity|]. frame. }
  destruct (truthy (live cacheKey w)).
  2:{ cbn. eexists _, _. split; [reflexivity|]. frame. }
  unfold parse. destruct (JSON_parse _) as [v|].
  - cbn. eexists _, _. split; [reflexivity|]. frame. exists v. reflexivity.
  - cbn. eexists _, _. split; [reflexivity|]. frame.
Qed.

(** The guarded write: it never throws, and touches neither the response
    object nor the adapter nor the clock. *)
Lemma cache_write_cases (redis : option nat) (v : json) (w : world) :
  exists w',
    cache_write redis cacheKey v w = (Normal tt, w')
    /\ same_adapter w' w /\ res w' = res w /\ clock w' = clock w.
Proof.
  destruct redis as [r|]; cbn.
  2:{ exists w. repeat split. }
  unfold try_catch. rewrite client_setEx_spec. cbn zeta.
  destruct (is_open r w).
  2:{ cbn. eexists. split; [reflexivity|]. frame. }
  destruct (hd false (outages w)); cbn; (eexists; split; [reflexivity|]); frame.
Qed.

(** A request whose read has answered is over. *)
Lemma route_from_answered (source : js json) (w w1 : world) :
  cache_read (getRedisClient w) cacheKey w = (Normal true, w1) ->
  route_from source w = (Normal tt, w1).
Proof.
  intros H. unfold route_from, bind, gets, try_catch. fold cacheKey.
  rewrite H. reflexivity.
Qed.

(** A request whose read has not answered goes to the source, then to the
    guarded write, then answers. *)
Lemma route_from_unanswered (source : js json) (w w1 w2 : world) (v : json) :
  cache_read (getRedisClient w) cacheKey w = (Normal false, w1) ->
  source w1 = (Normal v, w2) ->
  route_from source w =
    res_json (Payload "db" v) (snd (cache_write (getRedisClient w) cacheKey v w2)).
Proof.
  intros H Hs. unfold route_from, bind, gets, try_catch. fold cacheKey.
  rewrite H, Hs.
  destruct (cache_write_cases (getRedisClient w) v w2) as (w3 & Hw & _).
  rewrite Hw. reflexivity.
Qed.

(** A source that throws is caught by the outer handler. *)
Lemma route_from_source_throws (source : js json) (w w1 w2 : world) (e : js_error) :
  cache_read (getRedisClient w) cacheKey w = (Normal false, w1) ->
  source w1 = (Thrown e, w2) ->
  route_from source w =
    (Normal tt,
     set_res (reply 500 (Failure "Internal server error"))
       (set_console (console w2 ++ [(error_, "Route failure: " +:+ message e)]) w2)).
Proof.
  intros H Hs. unfold route_from, bind, gets, try_catch. fold cacheKey.
  rewrite H, Hs. reflexivity.
Qed.

(** Without a client the handler goes to the database and touches nothing
    of the cache. *)
Lemma route_without_client (w : world) :
  getRedisClient w = None ->
  route w =
    (Normal tt,
     set_res (reply (statusCode (res w)) (Payload "db" products))
       (set_clock (clock w + 1500) w)).
Proof.
  intros H. unfold route, route_from, bind, gets, try_catch. rewrite H. reflexivity.
Qed.

(** The repository's handler always answers with the stored or the static
    list, and leaves the adapter as it found it. *)
Lemma route_answers (w : world) :
  exists w' src v,
    route w = (Normal tt, w')
    /\ res w' = reply (statusCode (res w)) (Payload src v)
    /\ (src = "cache" \/ src = "db" /\ v = products)
    /\ same_adapter w' w.
Proof.
  destruct (cache_read_cases (getRedisClient w) w)
    as (b & w1 & Hread & Hsame & _ & _ & Hres).
  destruct b.
  - destruct Hres as (v & Hres).
    exists w1, "cache", v. unfold route.
    rewrite (route_from_answered _ _ _ Hread). auto.
  - set (w2 := set_clock (clock w1 + 1500) w1).
    destruct (cache_write_cases (getRedisClient w) products w2)
      as (w3 & Hw & Hsame3 & Hres3 & _).
    unfold route.
    rewrite (route_from_unanswered simulated_db w w1 w2 products Hread eq_refl).
    rewrite Hw. cbn.
    eexists _, "db", products. split; [reflexivity|]. cbn.
    rewrite Hres3. cbn. rewrite Hres.
    split; [reflexivity|]. split; [auto|].
    unfold same_adapter in *. subst w2. cbn in Hsame3. cbn.
    destruct Hsame3 as (a & b & c & d). destruct Hsame as (a' & b' & c' & d').
    repeat split; congruence.
Qed.

(** A read that brings back JSON text answers the request. *)
Lemma read_answers (w w1 : world) (r : nat) (text : string) (v : json) :
  client_get r cacheKey w = (Normal (Some text), w1) ->
  text <> "" ->
  JSON_parse text = Some v ->
  cache_read (Some r) cacheKey w =
    (Normal true, set_res (reply (statusCode (res w1)) (Payload "cache" v)) w1)
  /\ wire w1 = (wire w ++ [GET cacheKey])%list
  /\ keyspace w1 = keyspace w
  /\ clock w1 = clock w
  /\ res w1 = res w.
Proof.
  intros Hget Hne Hparse.
  split.
  - unfold cache_read, try_catch, bind. rewrite Hget.
    rewrite (truthy_Some _ Hne). cbn. unfold parse. rewrite Hparse.
    reflexivity.
  - rewrite client_get_spec in Hget. cbn in Hget.
    destruct (is_open r w); [|discriminate].
    destruct (hd false (outages w)); inversion Hget; subst.
    autorewrite with world. repeat split; reflexivity.
Qed.

(** C3. When the cache read of a request yields a non-empty text that
    [JSON.parse] accepts, the handler answers with the parsed value tagged
    "cache" and returns at once: the world it leaves is the world after the
    read with the answer put in the response object, whatever [source] is,
    so the source has not run, no further command was issued and the key
    space is as the read left it. *)
Theorem cache_hit_skips_source (source : js json) (w w1 : world) (r : nat)
    (text : string) (v : json) :
  getRedisClient w = Some r ->
  client_get r cacheKey w = (Normal (Some text), w1) ->
  text <> "" ->
  JSON_parse text = Some v ->
  route_from source w =
    (Normal tt, set_res (reply (statusCode (res w1)) (Payload "cache" v)) w1)
  /\ wire w1 = (wire w ++ [GET cacheKey])%list
  /\ keyspace w1 = keyspace w
  /\ clock w1 = clock w
  /\ res w1 = res w.
Proof.
  intros Hredis Hget Hne Hparse.
  destruct (read_answers w w1 r text v Hget Hne Hparse) as (Hread & Hrest).
  split; [|exact Hrest].
  apply route_from_answered. rewrite Hredis. exact Hread.
Qed.

(** The world a request leaves when its read went through and brought back
    nothing usable: no text, the empty text, or text that is not JSON.
    [wr] tells whether the write that follows fails. *)
Lemma unusable_read (w : world) (r : nat) (cached : option string) :
  getRedisClient w = Some r ->
  is_open r w = true ->
  hd false (outages w) = false ->
  live cacheKey w = cached ->
  truthy cached = false \/ JSON_parse (default "" cached) = None ->
  let wr := hd false (tl (outages w)) in
  let text := JSON_stringify products in
  exists w',
    route w = (Normal tt, w')
    /\ res w' = reply (statusCode (res w)) (Payload "db" products)
    /\ wire w' = (wire w ++ [GET cacheKey; SETEX cacheKey 60 text])%list
    /\ clock w' = clock w + 1500
    /\ console w' =
         (console w
            ++ (if truthy cached then [read_warning] else [])
            ++ (if wr then [write_warning] else []))%list
    /\ keyspace w' =
         (if wr then keyspace w
          else <[cacheKey := (text, clock w + 1500 + 1000 * 60)]> (keyspace w)).
Proof.
  intros Hredis Hopen Hrd Hlive Hbad wr text. subst wr text.
  set (w0 := pop_outage (set_wire (wire w ++ [GET cacheKey]) w)).
  assert (Hget : client_get r cacheKey w = (Normal cached, w0)).
  { rewrite client_get_spec. cbn zeta. rewrite Hopen, Hrd, Hlive. reflexivity. }
  set (w1 := if truthy cached
             then set_console (console w0 ++ [read_warning]) w0 else w0).
  assert (Hread : cache_read (Some r) cacheKey w = (Normal false, w1)).
  { unfold cache_read, try_catch, bind. rewrite Hget. subst w1.
    destruct (truthy cached) eqn:Ht; [|reflexivity].
    destruct Hbad as [Hf|Hp]; [discriminate|].
    unfold parse. rewrite Hp. reflexivity. }
  set (w2 := set_clock (clock w1 + 1500) w1).
  assert (Hframe : heap w2 = heap w /\ outages w2 = tl (outages w)
                   /\ clock w2 = clock w + 1500 /\ keyspace w2 = keyspace w
                   /\ res w2 = res w
                   /\ wire w2 = (wire w ++ [GET cacheKey])%list
                   /\ console w2 =
                        (console w ++ if truthy cached then [read_warning] else [])%list).
  { subst w2 w1 w0. destruct (truthy cached); cbn; autorewrite with world; cbn;
      rewrite ?app_nil_r; repeat split; reflexivity. }
  destruct Hframe as (Hh & Ho & Hc & Hk & Hr & Hw & Hcon).
  unfold route.
  rewrite (route_from_unanswered simulated_db w w1 w2 products);
    [| rewrite Hredis; exact Hread | reflexivity].
  clearbody w2. clear Hread Hget. clearbody w1.
  rewrite Hredis. unfold cache_write, try_catch. rewrite client_setEx_spec.
  cbn zeta. rewrite (is_open_frame r w w2 Hh), Hopen, Ho.
  destruct (hd false (tl (outages w))); cbn;
    (eexists; split; [reflexivity|]); cbn; autorewrite with world; cbn;
    rewrite ?Hh, ?Hc, ?Hk, ?Hr, ?Hw, ?Hcon, ?app_nil_r, <- ?app_assoc;
    repeat split; reflexivity.
Qed.

(** C4. A request finds, under its key, a text that is not empty and that
    [JSON.parse] rejects (the read itself goes through). The handler then
    returns normally, having logged the failed read; it has waited for the
    database and answers with the static list tagged "db", the status code
    untouched; it has issued the same two commands as on a miss, the read
    and the write of the fresh serialization with a life of 60 seconds; and
    when that write goes through the entry under the key is the fresh one.
    The response, the commands, the clock and (the write going through) the
    key space are those of the same request made with the key absent. *)
Theorem malformed_entry_is_a_miss (w : world) (r : nat) (text : string) :
  getRedisClient w = Some r ->
  is_open r w = true ->
  hd false (outages w) = false ->
  live cacheKey w = Some text ->
  text <> "" ->
  JSON_parse text = None ->
  let wr := hd false (tl (outages w)) in
  let fresh := JSON_stringify products in
  let absent := set_keyspace (delete cacheKey (keyspace w)) w in
  exists w' wm,
    route w = (Normal tt, w')
    /\ res w' = reply (statusCode (res w)) (Payload "db" products)
    /\ clock w' = clock w + 1500
    /\ wire w' = (wire w ++ [GET cacheKey; SETEX cacheKey 60 fresh])%list
    /\ console w' =
         (console w ++ [read_warning] ++ if wr then [write_warning] else [])%list
    /\ (wr = false ->
        keyspace w' = <[cacheKey := (fresh, clock w + 1500 + 60000)]> (keyspace w))
    /\ route absent = (Normal tt, wm)
    /\ res wm = res w' /\ wire wm = wire w' /\ clock wm = clock w'
    /\ (wr = false -> keyspace wm = keyspace w').
Proof.
  intros Hredis Hopen Hrd Hlive Hne Hparse wr fresh absent.
  destruct (unusable_read w r (Some text) Hredis Hopen Hrd Hlive (or_intror Hparse))
    as (w' & Hroute & Hres & Hwire & Hclock & Hcon & Hks).
  assert (Habs : live cacheKey absent = None).
  { unfold live, absent. cbn. rewrite lookup_delete_eq. reflexivity. }
  destruct (unusable_read absent r None Hredis Hopen Hrd Habs (or_introl eq_refl))
    as (wm & Hroutem & Hresm & Hwirem & Hclockm & _ & Hksm).
  exists w', wm. rewrite (truthy_Some _ Hne) in Hcon. fold wr in Hcon, Hks, Hksm.
  change (outages absent) with (outages w) in Hksm. fold wr in Hksm.
  repeat split; try assumption.
  - intros Hwr. rewrite Hks, Hwr. reflexivity.
  - rewrite Hresm, Hres. reflexivity.
  - rewrite Hwirem, Hwire. reflexivity.
  - rewrite Hclockm, Hclock. reflexivity.
  - intros Hwr. rewrite Hksm, Hks, Hwr. cbn. apply insert_delete_eq.
Qed.

(** C10. A request finds the empty string under its key (the read itself
    goes through). The test [if (cached)] fails, so the handler goes on as
    on a miss, without any warning about the read: it waits for the
    database, answers with the static list tagged "db", and has issued the
    write of the fresh serialization, which replaces the entry when it goes
    through. *)
Theorem empty_string_entry_is_a_miss (w : world) (r : nat) :
  getRedisClient w = Some r ->
  is_open r w = true ->
  hd false (outages w) = false ->
  live cacheKey w = Some "" ->
  let wr := hd false (tl (outages w)) in
  let fresh := JSON_stringify products in
  exists w',
    route w = (Normal tt, w')
    /\ res w' = reply (statusCode (res w)) (Payload "db" products)
    /\ clock w' = clock w + 1500
    /\ wire w' = (wire w ++ [GET cacheKey; SETEX cacheKey 60 fresh])%list
    /\ console w' = (console w ++ if wr then [write_warning] else [])%list
    /\ (wr = false ->
        keyspace w' = <[cacheKey := (fresh, clock w + 1500 + 60000)]> (keyspace w)).
Proof.
  intros Hredis Hopen Hrd Hlive wr fresh.
  destruct (unusable_read w r (Some "") Hredis Hopen Hrd Hlive (or_introl eq_refl))
    as (w' & Hroute & Hres & Hwire & Hclock & Hcon & Hks).
  exists w'. fold wr in Hcon, Hks. cbn in Hcon.
  repeat split; try assumption.
  intros Hwr. rewrite Hks, Hwr. reflexivity.
Qed.

(** C5. A request whose read has not answered gets the static list tagged
    "db", the status code untouched, and the handler returns normally,
    whatever becomes of the write that follows: when [setEx] is fulfilled
    the console is as the read left it and the key space is the one the
    write made; when it is rejected the handler adds one warning to the
    console and leaves the key space alone. *)
Theorem write_outcome_is_ignored (w w1 : world) :
  cache_read (getRedisClient w) cacheKey w = (Normal false, w1) ->
  let w2 := set_clock (clock w1 + 1500) w1 in
  let fresh := JSON_stringify products in
  exists w',
    route w = (Normal tt, w')
    /\ res w' = reply (statusCode (res w)) (Payload "db" products)
    /\ match getRedisClient w with
       | None => console w' = console w1 /\ keyspace w' = keyspace w1
       | Some r =>
           match client_setEx r cacheKey 60 fresh w2 with
           | (Normal _, w3) => console w' = console w1 /\ keyspace w' = keyspace w3
           | (Thrown _, _) =>
               console w' = (console w1 ++ [write_warning])%list
               /\ keyspace w' = keyspace w1
           end
       end.
Proof.
  intros Hread w2 fresh.
  destruct (cache_read_cases (getRedisClient w) w)
    as (b & w1' & Hread' & _ & _ & _ & Hres).
  rewrite Hread in Hread'. inversion Hread'; subst b w1'. clear Hread'.
  unfold route.
  rewrite (route_from_unanswered simulated_db w w1 w2 products Hread eq_refl).
  destruct (getRedisClient w) as [r|]; cbn.
  - unfold try_catch. fold fresh. rewrite client_setEx_spec. cbn zeta.
    destruct (is_open r w2).
    + destruct (hd false (outages w2)); cbn;
        (eexists; split; [reflexivity|]); cbn; autorewrite with world; cbn;
        rewrite Hres; repeat split; reflexivity.
    + cbn. eexists; split; [reflexivity|]. cbn. rewrite Hres.
      repeat split; reflexivity.
  - eexists; split; [reflexivity|]. cbn. rewrite Hres. repeat split; reflexivity.
Qed.

(** C6. Whatever the source of the list is, the handler returns normally and
    has sent either a body [{ source, data }] whose source is "cache" or
    "db", or the body [{ error }] with status 500; the latter only when the
    source itself threw, and always when the read has not answered and the
    source, called on the world the read left, throws. With the repository's
    source, which cannot throw, every request is answered with status 200 and
    a body [{ source, data }], whatever the outcomes of the cache commands. *)
Theorem only_source_failure_surfaces :
  (forall (source : js json) (w : world),
      exists w',
        route_from source w = (Normal tt, w')
        /\ ((exists v, sent (res w') = Some (Payload "cache" v))
            \/ (exists v, sent (res w') = Some (Payload "db" v))
            \/ (res w' = reply 500 (Failure "Internal server error")
                /\ exists w1 e w2, source w1 = (Thrown e, w2))))
  /\ (forall (source : js json) (w w1 w2 : world) (e : js_error),
        cache_read (getRedisClient w) cacheKey w = (Normal false, w1) ->
        source w1 = (Thrown e, w2) ->
        exists w',
          route_from source w = (Normal tt, w')
          /\ res w' = reply 500 (Failure "Internal server error"))
  /\ (forall (faults : list bool) (w : world),
        exists w' src v,
          serve faults w = (Normal tt, w')
          /\ res w' = reply 200 (Payload src v)
          /\ (src = "cache" \/ src = "db")).
Proof.
  split; [|split].
  - intros source w.
    destruct (cache_read_cases (getRedisClient w) w)
      as (b & w1 & Hread & _ & _ & _ & Hres).
    destruct b.
    + destruct Hres as (v & Hres). exists w1.
      rewrite (route_from_answered _ _ _ Hread). split; [reflexivity|].
      left. exists v. rewrite Hres. reflexivity.
    + destruct (source w1) as [[v|e] w2] eqn:Hs.
      * rewrite (route_from_unanswered source w w1 w2 v Hread Hs).
        eexists. split; [reflexivity|]. right. left. exists v. reflexivity.
      * rewrite (route_from_source_throws source w w1 w2 e Hread Hs).
        eexists. split; [reflexivity|]. right. right.
        split; [reflexivity|]. eauto.
  - intros source w w1 w2 e Hread Hs.
    rewrite (route_from_source_throws source w w1 w2 e Hread Hs).
    eexists. split; reflexivity.
  - intros faults w.
    change (serve faults w)
      with (route (set_res fresh_response (set_outages faults w))).
    destruct (route_answers (set_res fresh_response (set_outages faults w)))
      as (w' & src & v & Hroute & Hres & Hsrc & _).
    exists w', src, v. rewrite Hroute. split; [reflexivity|].
    split; [exact Hres|]. destruct Hsrc as [->|[-> _]]; auto.
Qed.

End Handler.

(** ** The adapter along a run *)

Lemma not_true_iff (v : option string) : not_true v = true <-> v <> Some "true".
Proof.
  unfold not_true. destruct v as [s|]; [|split; [discriminate|reflexivity]].
  destruct (String.eqb s "true") eqn:E; cbn.
  - apply String.eqb_eq in E. subst. split; [discriminate|congruence].
  - apply String.eqb_neq in E. split; [congruence|reflexivity].
Qed.

Lemma not_true_false (v : option string) : v = Some "true" -> not_true v = false.
Proof. intros ->. reflexivity. Qed.

(** [connectRedis] as it stands is its two halves one after the other. *)
Lemma connectRedis_split (w : world) :
  not_true (REDIS_ENABLED (env w)) = false ->
  connectRedis w = bind connectRedis_setup connectRedis_resume w.
Proof.
  intros H.
  unfold connectRedis, connectRedis_setup, connectRedis_resume, client_connect,
    try_catch, bind, gets.
  rewrite H. reflexivity.
Qed.

Lemma launch_in_state e ks now :
  in_state (launch_state e) (launch e ks now)
  /\ env (launch e ks now) = e
  /\ keyspace (launch e ks now) = ks
  /\ clock (launch e ks now) = now
  /\ wire (launch e ks now) = [].
Proof.
  unfold launch_state, launch, app_startup, connectRedis, try_catch, bind, gets.
  cbn [env boot].
  destruct (not_true (REDIS_ENABLED e)); cbn; repeat split.
Qed.

Lemma start_in_state e ks now refused :
  in_state (initial_state e refused) (start e ks now refused)
  /\ env (start e ks now refused) = e.
Proof.
  unfold initial_state, start, settle, launch, app_startup, connectRedis,
    try_catch, bind, gets.
  cbn [env boot].
  destruct (not_true (REDIS_ENABLED e)); [|destruct refused];
    vm_compute; repeat split; auto.
Qed.

(** Settling at once is what app.js does when nothing happens meanwhile. *)
Lemma startup_split e ks now refused :
  REDIS_ENABLED e = Some "true" ->
  snd (app_startup (set_outages [refused] (boot e ks now))) = start e ks now refused.
Proof.
  intros H. apply not_true_false in H.
  unfold start, settle, launch, app_startup, connectRedis, try_catch, bind, gets.
  cbn [env boot set_outages]. rewrite H.
  destruct refused; vm_compute; reflexivity.
Qed.

Lemma in_state_getRedisClient st w :
  in_state st w ->
  getRedisClient w = match st with Ready => Some 0%nat | _ => None end.
Proof.
  unfold getRedisClient.
  destruct st; cbn; intros (H1 & H2 & _); rewrite ?H2;
    try destruct H1 as [H1|H1]; rewrite H1; reflexivity.
Qed.

Lemma all_up_hd (faults : list bool) :
  forallb negb faults = true ->
  hd false faults = false /\ hd false (tl faults) = false.
Proof.
  destruct faults as [|[] [|[] rest]]; cbn; intros H; try discriminate; auto.
Qed.

Lemma in_state_ready_open w : in_state Ready w -> is_open 0 w = true.
Proof. intros (_ & _ & H). unfold is_open. rewrite H. reflexivity. Qed.

Lemma in_state_pending st w c :
  in_state st w ->
  redisClient w = Some c -> conn_of c w = Some Connecting -> st = Pending.
Proof.
  unfold conn_of.
  destruct st; cbn; intros (H1 & _ & H3) Hc Hconn; [congruence|reflexivity| |].
  - rewrite H1 in Hc. inversion Hc; subst. rewrite H3 in Hconn. discriminate.
  - destruct H1 as [H1|H1]; rewrite H1 in Hc; [discriminate|].
    inversion Hc; subst. rewrite H3 in Hconn. discriminate.
Qed.

Lemma after_down evs : forall st, down st = true -> fold_left after evs st = st.
Proof.
  induction evs as [|ev evs IH]; intros st Hst; cbn; [reflexivity|].
  destruct st; try discriminate; cbn; apply IH; reflexivity.
Qed.

Lemma after_settled evs : forall st,
  st <> Pending -> fold_left after evs st <> Pending.
Proof.
  induction evs as [|ev evs IH]; intros st Hst; cbn; [exact Hst|].
  apply IH. destruct st; try contradiction; cbn.
  - discriminate.
  - destruct ev as [r|[|c] e|[|c]|c|ms|faults]; discriminate.
  - discriminate.
Qed.

Lemma after_connect_settled st refused : after st (ConnectSettled refused) <> Pending.
Proof. destruct st, refused; discriminate. Qed.

Section Run.
Context `{J : JSON}.

Lemma serve_same_adapter faults w : same_adapter (snd (serve faults w)) w.
Proof.
  change (serve faults w)
    with (route (set_res fresh_response (set_outages faults w))).
  destruct (route_answers (set_res fresh_response (set_outages faults w)))
    as (w' & src & v & Hroute & _ & _ & Hsame).
  rewrite Hroute. exact Hsame.
Qed.

(** A request served without a client. *)
Lemma serve_without_client faults w :
  getRedisClient w = None ->
  serve faults w =
    (Normal tt,
     set_res (reply 200 (Payload "db" products))
       (set_clock (clock w + 1500)
          (set_res fresh_response (set_outages faults w)))).
Proof.
  intros H.
  change (serve faults w)
    with (route (set_res fresh_response (set_outages faults w))).
  rewrite route_without_client; [reflexivity | exact H].
Qed.

(** Every event takes the adapter where [after] says. *)
Lemma fire_in_state st ev w :
  in_state st w -> in_state (after st ev) (fire ev w) /\ env (fire ev w) = env w.
Proof.
  intros H.
  destruct ev as [refused|c e|c|c|ms|faults].
  5:{ destruct st; cbn in *; tauto. }
  5:{ destruct (serve_same_adapter faults w) as (He & Hc & Hr & Hh).
      change (fire (Request faults) w) with (snd (serve faults w)).
      destruct st; cbn in *; rewrite He, Hc, Hr, Hh; tauto. }
  all: destruct w as [e0 rc rr h ks clk outs wr cons rs]; cbn in H.
  all: destruct st; cbn in H; destruct H as (H1 & H2 & H3); subst.
  1-4: destruct refused; cbn; try tauto.
  1-2: destruct H1; subst; cbn; tauto.
  all: destruct c as [|c]; cbn; try tauto.
  all: try (destruct H1; subst; cbn; tauto).
Qed.

Lemma run_in_state evs : forall st w,
  in_state st w ->
  in_state (fold_left after evs st) (run evs w) /\ env (run evs w) = env w.
Proof.
  induction evs as [|ev evs IH]; intros st w H; cbn; [auto|].
  destruct (fire_in_state st ev w H) as (H' & He).
  destruct (IH _ _ H') as (H'' & He'). split; [exact H''|congruence].
Qed.

Lemma reachable_in_state e ks now evs :
  in_state (fold_left after evs (launch_state e)) (run evs (launch e ks now)).
Proof.
  destruct (launch_in_state e ks now) as (H & _).
  apply (run_in_state evs _ _ H).
Qed.

Lemma settled_in_state e ks now refused evs :
  in_state (fold_left after evs (initial_state e refused))
    (run evs (start e ks now refused)).
Proof.
  destruct (start_in_state e ks now refused) as (H & _).
  apply (run_in_state evs _ _ H).
Qed.

Lemma initial_state_down e : down (initial_state e true) = true.
Proof. unfold initial_state. destruct (not_true _); reflexivity. Qed.

Lemma in_state_down st w :
  in_state st w -> st <> Pending -> redisReady w = false -> down st = true.
Proof.
  destruct st; cbn; intros (_ & H & _) Hp Hr; try reflexivity;
    [contradiction|congruence].
Qed.

Lemma in_state_not_ready st w : in_state st w -> down st = true -> redisReady w = false.
Proof. destruct st; cbn; intros (_ & H & _) Hd; try discriminate; exact H. Qed.

Lemma in_state_ready st w : in_state st w -> redisReady w = true -> st = Ready.
Proof. destruct st; cbn; intros (_ & H & _) Hr; congruence. Qed.

(** C8. As the process starts [redisReady] is false. In every state the
    process reaches from the moment the event loop takes over, the connection
    attempt pending or settled and whatever happens, [redisReady] is false
    when [REDIS_ENABLED] is not the string "true". And in every world
    [getRedisClient], a total function of the two module variables, gives
    null when the cache is disabled (in a reachable state), when
    [redisReady] is false, or when [redisClient] was never set; it gives the
    client exactly when there is one and [redisReady] holds. *)
Theorem ready_only_when_enabled :
  (forall e ks now,
      redisReady (boot e ks now) = false /\ getRedisClient (boot e ks now) = None)
  /\ (forall e ks now evs,
      REDIS_ENABLED e <> Some "true" ->
      redisReady (run evs (launch e ks now)) = false
      /\ getRedisClient (run evs (launch e ks now)) = None)
  /\ (forall w, redisReady w = false -> getRedisClient w = None)
  /\ (forall w, redisClient w = None -> getRedisClient w = None)
  /\ (forall w c,
        getRedisClient w = Some c <-> redisClient w = Some c /\ redisReady w = true).
Proof.
  split; [|split; [|split; [|split]]].
  - intros e ks now. split; reflexivity.
  - intros e ks now evs Hoff.
    pose proof (reachable_in_state e ks now evs) as H.
    apply not_true_iff in Hoff. unfold launch_state in H. rewrite Hoff in H.
    rewrite after_down in H by reflexivity.
    rewrite (in_state_getRedisClient _ _ H).
    destruct H as (_ & H & _). auto.
  - intros w H. unfold getRedisClient. rewrite H. destruct (redisClient w); reflexivity.
  - intros w H. unfold getRedisClient. rewrite H. reflexivity.
  - intros w c. unfold getRedisClient.
    destruct (redisClient w) as [c'|], (redisReady w); cbn;
      split; try discriminate; try (intros [? ?]; discriminate).
    + intros H. inversion H. auto.
    + intros [H _]. exact H.
Qed.

(** [connectRedis] returns normally in every world. *)
Lemma connectRedis_normal (w : world) :
  exists r w', connectRedis w = (Normal r, w').
Proof.
  unfold connectRedis, bind, gets.
  destruct (not_true (REDIS_ENABLED (env w))); [cbn; eauto|].
  unfold try_catch.
  match goal with |- context [match ?b with _ => _ end] => destruct b as [[r|err] w'] end;
    cbn; eauto.
Qed.

(** What [connectRedis] does when the server turns the connection down. *)
Lemma connectRedis_refused (e : environment) (ks : gmap string (string * Z))
    (now : Z) :
  connectRedis (set_outages [true] (boot e ks now)) =
    (Normal None,
     if not_true (REDIS_ENABLED e) then
       {| env := e; redisClient := None; redisReady := false; heap := [];
          keyspace := ks; clock := now; outages := [true]; wire := [];
          console := [(log_, "Redis disabled via env")];
          res := fresh_response |}
     else
       {| env := e; redisClient := None; redisReady := false;
          heap := [the_client e Closed];
          keyspace := ks; clock := now; outages := []; wire := [];
          console := [(warn_, "Redis error (ignored): connect ECONNREFUSED");
                      (warn_, "Redis unavailable at startup")];
          res := fresh_response |}).
Proof.
  unfold connectRedis, bind, gets. cbn [env set_outages boot].
  destruct (not_true (REDIS_ENABLED e)); [reflexivity|].
  vm_compute. reflexivity.
Qed.

(** C2. [connectRedis] never throws. When the connection attempt is turned
    down it catches the rejection and returns null with [redisClient] null
    and [redisReady] false (the cache being enabled, the client is then
    closed and the console ends with the warning of the catch block); app.js
    goes on. And in the running process, whatever came while the attempt was
    pending, once its promise is rejected [getRedisClient] gives null, and
    every request from then on, whatever else happens, returns normally with
    status 200 and the static list tagged "db". *)
Theorem refused_connection_is_soft (e : environment)
    (ks : gmap string (string * Z)) (now : Z) :
  let w0 := set_outages [true] (boot e ks now) in
  (forall w, exists r w', connectRedis w = (Normal r, w'))
  /\ (exists w1,
        connectRedis w0 = (Normal None, w1)
        /\ redisClient w1 = None /\ redisReady w1 = false
        /\ (REDIS_ENABLED e = Some "true" ->
            heap w1 = [the_client e Closed]
            /\ last (console w1) = Some (warn_, "Redis unavailable at startup")))
  /\ (exists w1, app_startup w0 = (Normal tt, w1))
  /\ (forall before later faults c,
        redisClient (run before (launch e ks now)) = Some c ->
        conn_of c (run before (launch e ks now)) = Some Connecting ->
        let w := run later (fire (ConnectSettled true) (run before (launch e ks now))) in
        getRedisClient w = None
        /\ exists w',
             serve faults w = (Normal tt, w')
             /\ res w' = reply 200 (Payload "db" products)).
Proof.
  intros w0. split; [exact connectRedis_normal|]. split; [|split].
  - unfold w0. rewrite connectRedis_refused.
    destruct (not_true (REDIS_ENABLED e)) eqn:E.
    + eexists. split; [reflexivity|]. cbn.
      split; [reflexivity|]. split; [reflexivity|].
      intros Hon. rewrite (not_true_false _ Hon) in E. discriminate.
    + eexists. split; [reflexivity|]. cbn.
      split; [reflexivity|]. split; [reflexivity|].
      intros _. split; reflexivity.
  - unfold w0, app_startup, try_catch, bind. rewrite connectRedis_refused.
    destruct (not_true (REDIS_ENABLED e)); cbn; eauto.
  - intros before later faults c Hc Hconn w.
    pose proof (reachable_in_state e ks now before) as H0.
    rewrite (in_state_pending _ _ _ H0 Hc Hconn) in H0.
    destruct (fire_in_state _ (ConnectSettled true) _ H0) as (H1 & _).
    destruct (run_in_state later _ _ H1) as (H & _). fold w in H.
    rewrite after_down in H by reflexivity.
    assert (Hg : getRedisClient w = None)
      by exact (in_state_getRedisClient _ _ H).
    split; [exact Hg|].
    rewrite (serve_without_client _ _ Hg). eexists. split; reflexivity.
Qed.

(** C9. The adapter never goes back to ready. A pending connection attempt
    that is turned down leaves [redisReady] false; so does an error or the end
    of the socket of the adapter's client, whenever it comes; and once the
    connection attempt has settled, if [redisReady] is false in some state
    then it is false in every later state, [getRedisClient] gives null there,
    and every request returns normally with status 200 and the static list
    tagged "db", without a command to the cache. *)
Theorem no_return_to_ready :
  (forall e ks now before c,
      redisClient (run before (launch e ks now)) = Some c ->
      conn_of c (run before (launch e ks now)) = Some Connecting ->
      redisReady (fire (ConnectSettled true) (run before (launch e ks now))) = false)
  /\ (forall e ks now evs c err,
        redisClient (run evs (launch e ks now)) = Some c ->
        redisReady (fire (SocketError c err) (run evs (launch e ks now))) = false
        /\ redisReady (fire (SocketEnd c) (run evs (launch e ks now))) = false)
  /\ (forall e ks now before refused evs1 evs2 faults,
        let w1 :=
          run evs1 (fire (ConnectSettled refused) (run before (launch e ks now))) in
        redisReady w1 = false ->
        let w := run evs2 w1 in
        redisReady w = false
        /\ getRedisClient w = None
        /\ exists w',
             serve faults w = (Normal tt, w')
             /\ res w' = reply 200 (Payload "db" products)
             /\ wire w' = wire w).
Proof.
  split; [|split].
  - intros e ks now before c Hc Hconn.
    pose proof (reachable_in_state e ks now before) as H0.
    rewrite (in_state_pending _ _ _ H0 Hc Hconn) in H0.
    destruct (fire_in_state _ (ConnectSettled true) _ H0) as ((_ & H & _) & _).
    exact H.
  - intros e ks now evs c err Hc.
    pose proof (reachable_in_state e ks now evs) as H.
    set (w := run evs (launch e ks now)) in *.
    set (st := fold_left after evs (launch_state e)) in *.
    assert (c = 0%nat) as ->.
    { destruct st; cbn in H; destruct H as (H1 & _);
        try destruct H1 as [H1|H1]; congruence. }
    destruct (fire_in_state st (SocketError 0 err) w H) as (He & _).
    destruct (fire_in_state st (SocketEnd 0) w H) as (Hd & _).
    destruct st; cbn in He, Hd, H; try (destruct H as (H & _); congruence);
      destruct He as (_ & He & _), Hd as (_ & Hd & _); auto.
  - intros e ks now before refused evs1 evs2 faults w1 Hr w.
    pose proof (reachable_in_state e ks now before) as H0.
    destruct (fire_in_state _ (ConnectSettled refused) _ H0) as (H0' & _).
    destruct (run_in_state evs1 _ _ H0') as (H1 & _). fold w1 in H1.
    set (st := fold_left after evs1
                 (after (fold_left after before (launch_state e))
                    (ConnectSettled refused))) in *.
    assert (Hst : down st = true).
    { apply (in_state_down st w1 H1); [|exact Hr].
      apply after_settled, after_connect_settled. }
    destruct (run_in_state evs2 _ _ H1) as (H2 & _). fold w in H2.
    rewrite (after_down _ _ Hst) in H2.
    assert (Hg : getRedisClient w = None).
    { rewrite (in_state_getRedisClient _ _ H2). destruct st; try discriminate; reflexivity. }
    split; [exact (in_state_not_ready _ _ H2 Hst)|]. split; [exact Hg|].
    rewrite (serve_without_client _ _ Hg). eexists. repeat split; reflexivity.
Qed.

(** A request in the ready state whose read goes through and finds nothing
    usable, the write going through as well. *)
Lemma ready_miss (w : world) (faults : list bool) (cached : option string) :
  in_state Ready w ->
  forallb negb faults = true ->
  live cacheKey w = cached ->
  truthy cached = false \/ JSON_parse (default "" cached) = None ->
  let w' := fire (Request faults) w in
  res w' = reply 200 (Payload "db" products)
  /\ wire w' =
       (wire w ++ [GET cacheKey; SETEX cacheKey 60 (JSON_stringify products)])%list
  /\ clock w' = clock w + 1500
  /\ keyspace w' =
       <[cacheKey := (JSON_stringify products, clock w + 1500 + 60000)]> (keyspace w)
  /\ in_state Ready w'.
Proof.
  intros Hst Hup Hlive Hbad w'.
  destruct (fire_in_state Ready (Request faults) w Hst) as (Hst' & _).
  change (in_state Ready w') in Hst'.
  destruct (all_up_hd _ Hup) as (Hrd & Hwr).
  set (wq := set_res fresh_response (set_outages faults w)).
  assert (Hq : fire (Request faults) w = snd (route wq)) by reflexivity.
  destruct (unusable_read wq 0%nat cached
              (in_state_getRedisClient Ready w Hst) (in_state_ready_open w Hst)
              Hrd Hlive Hbad)
    as (w1 & Hroute & Hres & Hwire & Hclock & _ & Hks).
  subst w'. rewrite Hq, Hroute in *. cbn [snd] in *.
  change (outages wq) with faults in Hks. rewrite Hwr in Hks.
  split; [exact Hres|]. split; [exact Hwire|]. split; [exact Hclock|].
  split; [exact Hks|exact Hst'].
Qed.

(** A request in the ready state whose read goes through and finds JSON
    text. *)
Lemma ready_hit (w : world) (faults : list bool) (text : string) (v : json) :
  in_state Ready w ->
  hd false faults = false ->
  live cacheKey w = Some text ->
  text <> "" ->
  JSON_parse text = Some v ->
  let w' := fire (Request faults) w in
  res w' = reply 200 (Payload "cache" v)
  /\ wire w' = (wire w ++ [GET cacheKey])%list
  /\ clock w' = clock w
  /\ keyspace w' = keyspace w
  /\ in_state Ready w'.
Proof.
  intros Hst Hrd Hlive Hne Hparse w'.
  destruct (fire_in_state Ready (Request faults) w Hst) as (Hst' & _).
  change (in_state Ready w') in Hst'.
  set (wq := set_res fresh_response (set_outages faults w)).
  assert (Hq : fire (Request faults) w = snd (route wq)) by reflexivity.
  set (w1 := pop_outage (set_wire (wire wq ++ [GET cacheKey]) wq)).
  assert (Hget : client_get 0 cacheKey wq = (Normal (Some text), w1)).
  { rewrite client_get_spec. cbn zeta.
    change (is_open 0 wq) with (is_open 0 w). rewrite (in_state_ready_open w Hst).
    change (outages wq) with faults. rewrite Hrd.
    change (live cacheKey wq) with (live cacheKey w). rewrite Hlive. reflexivity. }
  destruct (read_answers wq w1 0%nat text v Hget Hne Hparse)
  as (Hread & Hwire & Hks & Hclock & Hres).
assert (Hroute : route wq
                 = (Normal tt,
                    set_res (reply (statusCode (res w1)) (Payload "cache" v)) w1)).
{ apply route_from_answered.
  rewrite (in_state_getRedisClient Ready wq Hst). exact Hread. }
subst w'. rewrite Hq in *. rewrite Hroute in *.
cbn [snd] in *. split; [cbn; rewrite Hres; reflexivity|].
split; [exact Hwire|]. split; [exact Hclock|]. split; [exact Hks|exact Hst'].
Qed.



Lemma start_frame e ks now refused :
  keyspace (start e ks now refused) = ks
  /\ clock (start e ks now refused) = now
  /\ wire (start e ks now refused) = [].
Proof.
  unfold start, settle, launch, app_startup, connectRedis, try_catch, bind, gets.
  cbn [env boot].
  destruct (not_true (REDIS_ENABLED e)); [|destruct refused];
    vm_compute; repeat split.
Qed.

End Run.

(** ** With the JSON text of the runtime *)

Lemma products_round_trip : Text.parse (Text.stringify products) = Some products.
Proof. vm_compute. reflexivity. Qed.

Lemma fresh_not_empty : Text.stringify products <> "".
Proof. vm_compute. discriminate. Qed.

Lemma holds_products_live w :
  holds_products w ->
  live cacheKey w = None \/ live cacheKey w = Some (Text.stringify products).
Proof.
  unfold live. intros [H|(x & H)]; rewrite H; [auto|].
  destruct (clock w <=? x)%Z; auto.
Qed.




(** A write that went through, then a read of the same key before the entry
    expires, on a client that is up: the read gives what was written. *)
Lemma setEx_then_get (c : nat) (key value : string) (seconds wait : Z) (w : world) :
  is_open c w = true ->
  outages w = [] ->
  0 <= wait <= 1000 * seconds ->
  let w' := snd (client_setEx c key seconds value w) in
  fst (client_setEx c key seconds value w) = Normal tt
  /\ fst (client_get c key (set_clock (clock w' + wait) w')) = Normal (Some value).
Proof.
  intros Hopen Hout Hwait. cbn zeta.
  rewrite client_setEx_spec. cbn zeta. rewrite Hopen, Hout. cbn [hd fst snd].
  split; [reflexivity|].
  rewrite client_get_spec. cbn zeta.
  match goal with |- context [is_open c ?x] =>
    rewrite (is_open_frame c w x) by (cbn; autorewrite with world; reflexivity)
  end.
  rewrite Hopen. cbn. autorewrite with world. cbn. rewrite Hout. cbn.
  unfold live. cbn. autorewrite with world. cbn. rewrite lookup_insert_eq.
  destruct (Z.leb_spec (clock w + wait) (clock w + 1000 * seconds)); [reflexivity|lia].
Qed.


(** C7. The cache enabled, the connection accepted, the key absent: the first
    request answers with the static list tagged "db" and has issued the read
    and the write of the serialized list with a life of 60 seconds, the entry
    expiring 60000 ms after the write; a second request less than 60 seconds
    later answers with the same list tagged "cache", having issued only a
    read and not waited for the database. Parsing the serialized list gives
    the list back; and for any key, value and life, a write that went through
    followed by a read before the entry expires gives the value written. *)
Theorem scenario_A (e : environment) (ks : gmap string (string * Z)) (now : Z)
    (gap : N) :
  REDIS_ENABLED e = Some "true" ->
  live cacheKey (boot e ks now) = None ->
  (gap < 60000)%N ->
  let fresh := Text.stringify products in
  let w0 := start e ks now false in
  let w1 := @fire text_JSON (Request []) w0 in
  let w2 := @fire text_JSON (Request []) (@fire text_JSON (Elapse gap) w1) in
  res w1 = reply 200 (Payload "db" products)
  /\ wire w1 = [GET cacheKey; SETEX cacheKey 60 fresh]
  /\ keyspace w1 !! cacheKey = Some (fresh, now + 1500 + 60 * 1000)
  /\ res w2 = reply 200 (Payload "cache" products)
  /\ wire w2 = (wire w1 ++ [GET cacheKey])%list
  /\ clock w2 = now + 1500 + Z.of_N gap
  /\ Text.parse fresh = Some products
  /\ (forall (c : nat) (key value : string) (seconds wait : Z) (w : world),
        is_open c w = true -> outages w = [] -> 0 <= wait <= 1000 * seconds ->
        let w' := snd (client_setEx c key seconds value w) in
        fst (client_setEx c key seconds value w) = Normal tt
        /\ fst (client_get c key (set_clock (clock w' + wait) w'))
           = Normal (Some value)).
Proof.
  intros Hon Habsent Hgap fresh w0 w1 w2.
  destruct (start_in_state e ks now false) as (H0 & _).
  unfold initial_state in H0. rewrite (not_true_false _ Hon) in H0. fold w0 in H0.
  destruct (start_frame e ks now false) as (Hk0 & Hc0 & Hw0). fold w0 in Hk0, Hc0, Hw0.
  assert (Hl0 : live cacheKey w0 = None).
  { unfold live in *. rewrite Hk0, Hc0. exact Habsent. }
  destruct (ready_miss (J:=text_JSON) w0 [] None H0 eq_refl Hl0 (or_introl eq_refl))
    as (Hres1 & Hwire1 & Hclock1 & Hks1 & H1).
  fold w1 in Hres1, Hwire1, Hclock1, Hks1, H1.
  set (w1' := @fire text_JSON (Elapse gap) w1) in *.
  assert (H1' : in_state Ready w1') by exact H1.
  assert (Hl1 : live cacheKey w1' = Some fresh).
  { unfold live. change (keyspace w1') with (keyspace w1).
    rewrite Hks1, lookup_insert_eq.
    change (clock w1') with (clock w1 + Z.of_N gap). rewrite Hclock1.
    destruct (Z.leb_spec (clock w0 + 1500 + Z.of_N gap) (clock w0 + 1500 + 60000));
      [reflexivity|lia]. }
  destruct (ready_hit (J:=text_JSON) w1' [] fresh products H1' eq_refl Hl1
              fresh_not_empty products_round_trip)
    as (Hres2 & Hwire2 & Hclock2 & _ & _).
  fold w2 in Hres2, Hwire2, Hclock2.
  split; [exact Hres1|]. split; [rewrite Hwire1, Hw0; reflexivity|].
  split; [rewrite Hks1, lookup_insert_eq, Hc0; reflexivity|].
  split; [exact Hres2|]. split; [exact Hwire2|].
  split; [rewrite Hclock2; change (clock w1') with (clock w1 + Z.of_N gap);
          rewrite Hclock1, Hc0; reflexivity|].
  split; [exact products_round_trip|].
  intros c key value seconds wait w. apply setEx_then_get.
Qed.

(** ** Checks of the model *)

(** The cache enabled, the event loop takes over with the connection attempt
    pending and no usable client. *)
Example pending_at_launch :
  redisClient (launch env_on ∅ 0) = Some 0%nat
  /\ conn_of 0 (launch env_on ∅ 0) = Some Connecting
  /\ getRedisClient (launch env_on ∅ 0) = None.
Proof. repeat split; reflexivity. Qed.

(** An accepted connection makes the adapter ready. *)
Example ready_is_reachable :
  redisReady (start env_on ∅ 0 false) = true
  /\ getRedisClient (start env_on ∅ 0 false) = Some 0%nat.
Proof. split; reflexivity. Qed.

(** A socket error takes it out of the ready state. *)
(** Requests come while the connection attempt is pending, then after. *)
Example requests_while_pending :
  map (fun r => sent r)
    (@responses text_JSON [Request []; ConnectSettled false; Request []; Request []]
       (launch env_on ∅ 0))
  = [Some (Payload "db" products); Some (Payload "db" products);
     Some (Payload "cache" products)].
Proof. vm_compute. reflexivity. Qed.

Example socket_error_fails :
  redisReady (@run text_JSON [SocketError 0 SocketClosedUnexpectedly]
                (start env_on ∅ 0 false)) = false.
Proof. reflexivity. Qed.

(** A client created with a reconnect strategy would come back: what keeps
    the adapter from going back to ready is [reconnectStrategy: false]. *)
Example reconnect_strategy_matters :
  let patient :=
    {| socket := {| host := None; port := None; reconnectStrategy := true |};
       listeners := listeners (the_client env_on Open);
       conn := Open |} in
  redisReady
    (@run text_JSON [SocketError 0 SocketClosedUnexpectedly; Reconnected 0]
       (set_heap [patient] (start env_on ∅ 0 false))) = true.
Proof. reflexivity. Qed.

(** A source that throws is reported with status 500. *)
Example failing_source_gives_500 :
  res (snd (@serve_from text_JSON (throw (JsError "db down")) []
              (start env_on ∅ 0 false)))
  = reply 500 (Failure "Internal server error").
Proof. reflexivity. Qed.

(** The same request with the write going through and with the write failing:
    the same response, another key space. *)
Example write_fails_or_not :
  let w := start env_on ∅ 0 false in
  res (@fire text_JSON (Request [false; false]) w)
    = res (@fire text_JSON (Request [false; true]) w)
  /\ keyspace (@fire text_JSON (Request [false; false]) w) !! cacheKey
       = Some (Text.stringify products, 61500)
  /\ keyspace (@fire text_JSON (Request [false; true]) w) !! cacheKey = None.
Proof. vm_compute. repeat split; reflexivity. Qed.

(** JSON text as the instance reads and writes it. *)
Example stringify_products :
  String.length (Text.stringify products) = 50%nat
  /\ Text.parse "[1, -20, {}, [ ], null, true, false]"
     = Some (JArray [JNumber 1; JNumber (-20); JObject []; JArray []; JNull;
                     JBool true; JBool false])
  /\ Text.parse "[1, 01]" = None
  /\ Text.parse "<html>" = None
  /\ Text.parse "" = None.
Proof. vm_compute. repeat split; reflexivity. Qed.

(** ** The theorems at sample worlds *)

Lemma cache_hit_skips_source_witness :
  getRedisClient warm = Some 0%nat
  /\ client_get 0 cacheKey warm = (Normal (Some (Text.stringify products)), warm_read)
  /\ Text.stringify products <> ""
  /\ JSON_parse (Text.stringify products) = Some products
  /\ @route_from text_JSON simulated_db warm =
       (Normal tt, set_res (reply 200 (Payload "cache" products)) warm_read).
Proof.
  assert (H1 : getRedisClient warm = Some 0%nat) by (vm_compute; reflexivity).
  assert (H2 : client_get 0 cacheKey warm
               = (Normal (Some (Text.stringify products)), warm_read))
    by (vm_compute; reflexivity).
  assert (H3 : Text.stringify products <> "") by (vm_compute; discriminate).
  assert (H4 : JSON_parse (Text.stringify products) = Some products)
    by (vm_compute; reflexivity).
  split; [exact H1|]. split; [exact H2|]. split; [exact H3|]. split; [exact H4|].
  exact (proj1 (cache_hit_skips_source (J:=text_JSON) simulated_db warm warm_read
                  0%nat (Text.stringify products) products H1 H2 H3 H4)).
Defined.

Lemma malformed_entry_is_a_miss_witness :
  getRedisClient corrupted = Some 0%nat
  /\ is_open 0 corrupted = true
  /\ hd false (outages corrupted) = false
  /\ live cacheKey corrupted = Some "<html>"
  /\ "<html>" <> ""
  /\ JSON_parse "<html>" = None
  /\ exists w',
       @route text_JSON corrupted = (Normal tt, w')
       /\ res w' = reply 200 (Payload "db" products)
       /\ keyspace w' !! cacheKey = Some (Text.stringify products, 61500).
Proof.
  assert (H1 : getRedisClient corrupted = Some 0%nat) by (vm_compute; reflexivity).
  assert (H2 : is_open 0 corrupted = true) by (vm_compute; reflexivity).
  assert (H3 : hd false (outages corrupted) = false) by (vm_compute; reflexivity).
  assert (H4 : live cacheKey corrupted = Some "<html>") by (vm_compute; reflexivity).
  assert (H5 : "<html>" <> "") by discriminate.
  assert (H6 : JSON_parse "<html>" = None) by (vm_compute; reflexivity).
  split; [exact H1|]. split; [exact H2|]. split; [exact H3|]. split; [exact H4|].
  split; [exact H5|]. split; [exact H6|].
  destruct (malformed_entry_is_a_miss (J:=text_JSON) corrupted 0%nat "<html>"
              H1 H2 H3 H4 H5 H6)
    as (w' & wm & Hroute & Hres & _ & _ & _ & Hks & _).
  exists w'. split; [exact Hroute|]. split; [exact Hres|].
  rewrite (Hks eq_refl). apply lookup_insert_eq.
Defined.

Lemma empty_string_entry_is_a_miss_witness :
  getRedisClient blanked = Some 0%nat
  /\ is_open 0 blanked = true
  /\ hd false (outages blanked) = false
  /\ live cacheKey blanked = Some ""
  /\ exists w',
       @route text_JSON blanked = (Normal tt, w')
       /\ res w' = reply 200 (Payload "db" products)
       /\ keyspace w' !! cacheKey = Some (Text.stringify products, 61500).
Proof.
  assert (H1 : getRedisClient blanked = Some 0%nat) by (vm_compute; reflexivity).
  assert (H2 : is_open 0 blanked = true) by (vm_compute; reflexivity).
  assert (H3 : hd false (outages blanked) = false) by (vm_compute; reflexivity).
  assert (H4 : live cacheKey blanked = Some "") by (vm_compute; reflexivity).
  split; [exact H1|]. split; [exact H2|]. split; [exact H3|]. split; [exact H4|].
  destruct (empty_string_entry_is_a_miss (J:=text_JSON) blanked 0%nat H1 H2 H3 H4)
    as (w' & Hroute & Hres & _ & _ & _ & Hks).
  exists w'. split; [exact Hroute|]. split; [exact Hres|].
  rewrite (Hks eq_refl). apply lookup_insert_eq.
Defined.

Lemma write_outcome_is_ignored_witness :
  @cache_read text_JSON (getRedisClient write_down) cacheKey write_down
    = (Normal false, write_down_read)
  /\ exists w',
       @route text_JSON write_down = (Normal tt, w')
       /\ res w' = reply 200 (Payload "db" products)
       /\ console w' = (console write_down_read ++ [write_warning])%list
       /\ keyspace w' = keyspace write_down_read.
Proof.
  assert (H1 : @cache_read text_JSON (getRedisClient write_down) cacheKey write_down
               = (Normal false, write_down_read)) by (vm_compute; reflexivity).
  split; [exact H1|].
  destruct (write_outcome_is_ignored (J:=text_JSON) write_down write_down_read H1)
    as (w' & Hroute & Hres & Hlog).
  exists w'. split; [exact Hroute|]. split; [exact Hres|]. exact Hlog.
Defined.


Lemma scenario_A_witness :
  REDIS_ENABLED env_on = Some "true"
  /\ live cacheKey (boot env_on ∅ 0) = None
  /\ (1000 < 60000)%N
  /\ res (@fire text_JSON (Request []) (start env_on ∅ 0 false))
     = reply 200 (Payload "db" products)
  /\ res (@fire text_JSON (Request [])
            (@fire text_JSON (Elapse 1000)
               (@fire text_JSON (Request []) (start env_on ∅ 0 false))))
     = reply 200 (Payload "cache" products).
Proof.
  assert (H1 : REDIS_ENABLED env_on = Some "true") by reflexivity.
  assert (H2 : live cacheKey (boot env_on ∅ 0) = None) by reflexivity.
  assert (H3 : (1000 < 60000)%N) by reflexivity.
  destruct (scenario_A env_on ∅ 0 1000%N H1 H2 H3) as (A & _ & _ & B & _).
  split; [exact H1|]. split; [exact H2|]. split; [exact H3|].
  split; [exact A|exact B].
Defined.

(** * More of the code *)

(** ** The handler and the running process *)

Section MoreHandler.
Context `{J : JSON}.

(** The world a request leaves when its read is rejected, by the network or
    because the client has no open socket. *)
Lemma rejected_read (w : world) (r : nat) :
  getRedisClient w = Some r ->
  is_open r w = false \/ hd false (outages w) = true ->
  let wr := if is_open r w then hd false (tl (outages w)) else true in
  let fresh := JSON_stringify products in
  exists w',
    route w = (Normal tt, w')
    /\ res w' = reply (statusCode (res w)) (Payload "db" products)
    /\ wire w' = (wire w ++ [GET cacheKey; SETEX cacheKey 60 fresh])%list
    /\ clock w' = clock w + 1500
    /\ console w' =
         (console w ++ [read_warning] ++ if wr then [write_warning] else [])%list
    /\ keyspace w' =
         (if wr then keyspace w
          else <[cacheKey := (fresh, clock w + 1500 + 60000)]> (keyspace w)).
Proof.
  intros Hredis Hbad wr fresh.
  set (wa := set_wire (wire w ++ [GET cacheKey]) w).
  set (w0 := if is_open r w then pop_outage wa else wa).
  set (w1 := set_console (console w0 ++ [read_warning]) w0).
  assert (Hread : cache_read (Some r) cacheKey w = (Normal false, w1)).
  { unfold cache_read, try_catch, bind. rewrite client_get_spec. cbn zeta.
    subst w1 w0 wa. destruct (is_open r w).
    - destruct Hbad as [Hf|Hf]; [discriminate|]. rewrite Hf. reflexivity.
    - reflexivity. }
  set (w2 := set_clock (clock w1 + 1500) w1).
  assert (Hframe : heap w2 = heap w
                   /\ outages w2 = (if is_open r w then tl (outages w) else outages w)
                   /\ clock w2 = clock w + 1500 /\ keyspace w2 = keyspace w
                   /\ res w2 = res w
                   /\ wire w2 = (wire w ++ [GET cacheKey])%list
                   /\ console w2 = (console w ++ [read_warning])%list).
  { subst w2 w1 w0 wa. destruct (is_open r w); cbn; autorewrite with world; cbn;
      repeat split; reflexivity. }
  destruct Hframe as (Hh & Ho & Hc & Hk & Hr & Hw & Hcon).
  unfold route.
  rewrite (route_from_unanswered simulated_db w w1 w2 products);
    [| rewrite Hredis; exact Hread | reflexivity].
  clearbody w2. clear Hread. clearbody w1.
  rewrite Hredis. unfold cache_write, try_catch. rewrite client_setEx_spec.
  cbn zeta. rewrite (is_open_frame r w w2 Hh), Ho. subst wr.
  destruct (is_open r w).
  - destruct (hd false (tl (outages w))); cbn;
      (eexists; split; [reflexivity|]); cbn; autorewrite with world; cbn;
      rewrite ?Hh, ?Hc, ?Hk, ?Hr, ?Hw, ?Hcon, ?app_nil_r, <- ?app_assoc;
      repeat split; reflexivity.
  - cbn. eexists; split; [reflexivity|]. cbn.
    rewrite ?Hh, ?Hc, ?Hk, ?Hr, ?Hw, ?Hcon, ?app_nil_r, <- ?app_assoc.
    repeat split; reflexivity.
Qed.

(** Every way a request can go: without a client; answered from the cache;
    or answered from the database after a read, with the write attempted. *)
Lemma route_cases (w : world) :
  let fresh := JSON_stringify products in
  exists w',
    route w = (Normal tt, w')
    /\ same_adapter w' w
    /\ ((getRedisClient w = None
         /\ res w' = reply (statusCode (res w)) (Payload "db" products)
         /\ wire w' = wire w /\ keyspace w' = keyspace w
         /\ clock w' = clock w + 1500)
        \/ (exists text v,
              getRedisClient w <> None
              /\ live cacheKey w = Some text /\ text <> ""
              /\ JSON_parse text = Some v
              /\ res w' = reply (statusCode (res w)) (Payload "cache" v)
              /\ wire w' = (wire w ++ [GET cacheKey])%list
              /\ keyspace w' = keyspace w /\ clock w' = clock w)
        \/ (getRedisClient w <> None
            /\ res w' = reply (statusCode (res w)) (Payload "db" products)
            /\ wire w' = (wire w ++ [GET cacheKey; SETEX cacheKey 60 fresh])%list
            /\ clock w' = clock w + 1500
            /\ (keyspace w' = keyspace w
                \/ keyspace w' =
                     <[cacheKey := (fresh, clock w + 1500 + 60000)]> (keyspace w)))).
Proof.
  intros fresh.
  destruct (route_answers w) as (w' & src & v0 & Hroute & _ & _ & Hsame).
  exists w'. split; [exact Hroute|]. split; [exact Hsame|].
  destruct (getRedisClient w) as [r|] eqn:Hredis.
  2:{ left. rewrite (route_without_client w Hredis) in Hroute.
      inversion Hroute; subst w'. repeat split; reflexivity. }
  right.
  assert (Hsome : Some r <> None) by discriminate.
  destruct (is_open r w) eqn:Hopen.
  2:{ right.
      destruct (rejected_read w r Hredis (or_introl Hopen))
        as (w'' & Hroute' & Hres & Hwire & Hclock & _ & Hks).
      rewrite Hroute in Hroute'. inversion Hroute'; subst w''.
      rewrite Hopen in Hks. repeat split; auto. }
  destruct (hd false (outages w)) eqn:Hrd.
  { right.
    destruct (rejected_read w r Hredis (or_intror Hrd))
      as (w'' & Hroute' & Hres & Hwire & Hclock & _ & Hks).
    rewrite Hroute in Hroute'. inversion Hroute'; subst w''.
    rewrite Hopen in Hks. repeat split; auto.
    destruct (hd false (tl (outages w))); auto. }
  destruct (live cacheKey w) as [text|] eqn:Hlive.
  2:{ right.
      destruct (unusable_read w r None Hredis Hopen Hrd Hlive (or_introl eq_refl))
        as (w'' & Hroute' & Hres & Hwire & Hclock & _ & Hks).
      rewrite Hroute in Hroute'. inversion Hroute'; subst w''.
      repeat split; auto.
      destruct (hd false (tl (outages w))); auto. }
  destruct (truthy (Some text)) eqn:Ht.
  2:{ right.
      destruct (unusable_read w r (Some text) Hredis Hopen Hrd Hlive (or_introl Ht))
        as (w'' & Hroute' & Hres & Hwire & Hclock & _ & Hks).
      rewrite Hroute in Hroute'. inversion Hroute'; subst w''.
      repeat split; auto.
      destruct (hd false (tl (outages w))); auto. }
  destruct (JSON_parse text) as [v|] eqn:Hparse.
  2:{ right.
      destruct (unusable_read w r (Some text) Hredis Hopen Hrd Hlive (or_intror Hparse))
        as (w'' & Hroute' & Hres & Hwire & Hclock & _ & Hks).
      rewrite Hroute in Hroute'. inversion Hroute'; subst w''.
      repeat split; auto.
      destruct (hd false (tl (outages w))); auto. }
  left. exists text, v.
  assert (Hne : text <> "").
  { intros ->. discriminate. }
  set (w1 := pop_outage (set_wire (wire w ++ [GET cacheKey]) w)).
  assert (Hget : client_get r cacheKey w = (Normal (Some text), w1)).
  { rewrite client_get_spec. cbn zeta. rewrite Hopen, Hrd, Hlive. reflexivity. }
  destruct (read_answers w w1 r text v Hget Hne Hparse)
    as (Hread & Hwire & Hks & Hclock & Hres).
  assert (Hroute' : route w
                    = (Normal tt,
                       set_res (reply (statusCode (res w1)) (Payload "cache" v)) w1)).
  { apply route_from_answered. rewrite Hredis. exact Hread. }
  rewrite Hroute in Hroute'. inversion Hroute'; subst w'.
  cbn. rewrite Hres. repeat split; auto.
Qed.

(** X1. When the read of a request is rejected ([redis.get] throws, because
    the client has no open socket or because the network fails the command),
    the handler logs
    the failed read, waits for the database and answers with the static list
    tagged "db", the status code untouched; it still attempts the write on
    the same client, after the read. A client without an open socket rejects
    the write as well; otherwise the write stores the fresh entry unless the
    network fails it too. *)
Theorem rejected_read_falls_back (w w1 : world) (r : nat) (err : js_error) :
  getRedisClient w = Some r ->
  client_get r cacheKey w = (Thrown err, w1) ->
  let wr := if is_open r w then hd false (tl (outages w)) else true in
  let fresh := JSON_stringify products in
  exists w',
    route w = (Normal tt, w')
    /\ res w' = reply (statusCode (res w)) (Payload "db" products)
    /\ wire w' = (wire w ++ [GET cacheKey; SETEX cacheKey 60 fresh])%list
    /\ clock w' = clock w + 1500
    /\ console w' =
         (console w ++ [read_warning] ++ if wr then [write_warning] else [])%list
    /\ keyspace w' =
         (if wr then keyspace w
          else <[cacheKey := (fresh, clock w + 1500 + 60000)]> (keyspace w)).
Proof.
  intros Hredis Hget. apply rejected_read; [exact Hredis|].
  rewrite client_get_spec in Hget. cbn zeta in Hget.
  destruct (is_open r w); [right|left; reflexivity].
  destruct (hd false (outages w)); [reflexivity|discriminate].
Qed.

(** X4. What a request puts on the wire goes with its answer, in every world.
    An answer tagged "cache" comes with exactly one command, the read; the
    key space and the clock are as before. An answer tagged "db" carries the
    static list and comes 1500 ms later; with no client it comes with no
    command at all, with a client it comes with the read followed by the
    write of the serialized list, life 60 seconds. So the handler never
    writes on a hit and never writes without having read. *)
Theorem commands_follow_the_answer (w : world) :
  exists w' src v cmds,
    route w = (Normal tt, w')
    /\ res w' = reply (statusCode (res w)) (Payload src v)
    /\ wire w' = (wire w ++ cmds)%list
    /\ ((src = "cache" /\ cmds = [GET cacheKey]
         /\ keyspace w' = keyspace w /\ clock w' = clock w)
        \/ (src = "db" /\ v = products /\ clock w' = clock w + 1500
            /\ cmds = match getRedisClient w with
                      | None => []
                      | Some _ =>
                          [GET cacheKey; SETEX cacheKey 60 (JSON_stringify products)]
                      end)).
Proof.
  destruct (route_cases w) as (w' & Hroute & _ & Hcases).
  destruct Hcases as [(Hnone & Hres & Hw & Hk & Hc)
                     |[(text & v & Hsome & _ & _ & _ & Hres & Hw & Hk & Hc)
                      |(Hsome & Hres & Hw & Hc & Hk)]].
  - exists w', "db", products, []. rewrite app_nil_r, Hnone.
    split; [exact Hroute|]. split; [exact Hres|]. split; [exact Hw|].
    right. repeat split; auto.
  - exists w', "cache", v, [GET cacheKey].
    split; [exact Hroute|]. split; [exact Hres|]. split; [exact Hw|].
    left. repeat split; auto.
  - exists w', "db", products. eexists.
    split; [exact Hroute|]. split; [exact Hres|]. split; [exact Hw|].
    right. destruct (getRedisClient w); [|contradiction]. repeat split; auto.
Qed.
End MoreHandler.

Section MoreRun.
Context `{J : JSON}.

(** Settling the connection attempt and socket events leave the server and
    the clock alone. *)
Lemma fire_silent st ev w :
  in_state st w ->
  match ev with
  | Request _ | Elapse _ => True
  | _ =>
      keyspace (fire ev w) = keyspace w /\ wire (fire ev w) = wire w
      /\ clock (fire ev w) = clock w
  end.
Proof.
  intros H.
  destruct ev as [refused|c e|c|c|ms|faults]; try exact I.
  all: destruct w as [e0 rc rr h ks clk outs wr cons rs]; cbn in H.
  all: destruct st; cbn in H; destruct H as (H1 & H2 & H3); subst.
  1-4: destruct refused; cbn; try (repeat split; reflexivity).
  1-2: destruct H1; subst; cbn; repeat split; reflexivity.
  all: destruct c as [|c]; cbn; try (repeat split; reflexivity).
  all: destruct H1; subst; cbn; repeat split; reflexivity.
Qed.

(** What any event may do to the server and to the clock. *)
Lemma fire_effects st ev w :
  in_state st w ->
  (keyspace (fire ev w) = keyspace w
   \/ exists x,
        keyspace (fire ev w) = <[cacheKey := (JSON_stringify products, x)]> (keyspace w))
  /\ (exists cmds,
        wire (fire ev w) = (wire w ++ cmds)%list /\ Forall products_command cmds)
  /\ clock w <= clock (fire ev w).
Proof.
  intros H.
  pose proof (fire_silent st ev w H) as Hs.
  destruct ev as [refused|c e|c|c|ms|faults].
  5:{ split; [left; reflexivity|]. split.
      - exists []. rewrite app_nil_r. split; [reflexivity|constructor].
      - cbn. lia. }
  5:{ set (wq := set_res fresh_response (set_outages faults w)).
      change (fire (Request faults) w) with (snd (route wq)).
      destruct (route_cases wq) as (w' & Hroute & _ & Hcases).
      rewrite Hroute. cbn [snd].
      change (keyspace wq) with (keyspace w) in Hcases.
      change (wire wq) with (wire w) in Hcases.
      change (clock wq) with (clock w) in Hcases.
      destruct Hcases as [(_ & _ & Hw & Hk & Hc)
                         |[(text & v & _ & _ & _ & _ & _ & Hw & Hk & Hc)
                          |(_ & _ & Hw & Hc & Hk)]].
      - split; [left; exact Hk|]. split; [|lia].
        exists []. rewrite app_nil_r. split; [exact Hw|constructor].
      - split; [left; exact Hk|]. split; [|lia].
        exists [GET cacheKey]. split; [exact Hw|].
        constructor; [left; reflexivity|constructor].
      - split; [destruct Hk as [Hk|Hk]; [left; exact Hk|right; eauto]|].
        split; [|lia].
        eexists. split; [exact Hw|].
        constructor; [left; reflexivity|].
        constructor; [right; reflexivity|constructor]. }
  all: destruct Hs as (Hk & Hw & Hc); rewrite Hk, Hw, Hc;
    (split; [left; reflexivity|]); (split; [|lia]);
    exists []; rewrite app_nil_r; split; [reflexivity|constructor].
Qed.

(** Along a run from the start of the event loop: the adapter's state, the
    keys other than the route's, the commands issued, the clock. *)
Lemma run_effects evs : forall st w,
  in_state st w ->
  (forall k, k <> cacheKey -> keyspace (run evs w) !! k = keyspace w !! k)
  /\ (exists cmds,
        wire (run evs w) = (wire w ++ cmds)%list /\ Forall products_command cmds)
  /\ clock w <= clock (run evs w).
Proof.
  induction evs as [|ev evs IH]; intros st w H; cbn.
  - split; [reflexivity|]. split; [|lia].
    exists []. rewrite app_nil_r. split; [reflexivity|constructor].
  - destruct (fire_effects st ev w H) as (Hk & (cmds & Hw & Hcmds) & Hc).
    destruct (fire_in_state st ev w H) as (H' & _).
    destruct (IH _ _ H') as (Hk' & (cmds' & Hw' & Hcmds') & Hc').
    split; [|split; [|lia]].
    + intros k Hne. rewrite (Hk' k Hne).
      destruct Hk as [->|(x & ->)]; [reflexivity|].
      apply lookup_insert_ne. congruence.
    + exists (cmds ++ cmds')%list. rewrite Hw', Hw, app_assoc.
      split; [reflexivity|]. apply Forall_app. split; assumption.
Qed.

(** X3. Whatever happens to the process (the connection attempt settling
    either way, socket errors, requests with any command failing), the cache
    server is only ever asked for the key "products:all": every command
    issued is the read of that key or the write of the serialized static list
    under it with a life of 60 seconds, and every other key of the server
    keeps the entry it had. *)
Theorem only_the_products_key (e : environment) (ks : gmap string (string * Z))
    (now : Z) (evs : list event) :
  (forall k, k <> cacheKey -> keyspace (run evs (launch e ks now)) !! k = ks !! k)
  /\ Forall products_command (wire (run evs (launch e ks now))).
Proof.
  destruct (launch_in_state e ks now) as (H & _ & Hk0 & _ & Hw0).
  destruct (run_effects evs _ _ H) as (Hk & (cmds & Hw & Hcmds) & _).
  split.
  - intros k Hne. rewrite (Hk k Hne), Hk0. reflexivity.
  - rewrite Hw, Hw0. exact Hcmds.
Qed.

(** X2. In every state the running process reaches, a client handed out by
    [getRedisClient] is the one [connectRedis] created (with the host and
    port of the environment and no reconnect strategy) and its socket is
    open. *)
Theorem handle_is_connected (e : environment) (ks : gmap string (string * Z))
    (now : Z) (evs : list event) (c : nat) :
  getRedisClient (run evs (launch e ks now)) = Some c ->
  heap (run evs (launch e ks now)) !! c = Some (the_client e Open)
  /\ is_open c (run evs (launch e ks now)) = true
  /\ redisReady (run evs (launch e ks now)) = true.
Proof.
  intros Hc.
  destruct (launch_in_state e ks now) as (H0 & He0 & _).
  destruct (run_in_state evs _ _ H0) as (H & He).
  rewrite (in_state_getRedisClient _ _ H) in Hc.
  destruct (fold_left after evs (launch_state e)); try discriminate.
  inversion Hc; subst c.
  destruct H as (_ & Hr & Hh). unfold is_open. rewrite Hh, He, He0.
  split; [reflexivity|]. split; [reflexivity|exact Hr].
Qed.




(** X6. An entry whose expiry time has passed counts for nothing, whatever it
    holds: from a state of the running process in which [getRedisClient]
    gives a client, a request whose commands go through is answered from the
    database with the static list, and the key then holds the fresh
    serialization, expiring 60000 ms after the write. *)
Theorem expired_entry_is_refreshed (e : environment) (ks : gmap string (string * Z))
    (now : Z) (before : list event) (c : nat) (text : string) (expiry : Z)
    (faults : list bool) :
  getRedisClient (run before (launch e ks now)) = Some c ->
  keyspace (run before (launch e ks now)) !! cacheKey = Some (text, expiry) ->
  expiry < clock (run before (launch e ks now)) ->
  forallb negb faults = true ->
  res (fire (Request faults) (run before (launch e ks now)))
    = reply 200 (Payload "db" products)
  /\ keyspace (fire (Request faults) (run before (launch e ks now))) !! cacheKey
     = Some (JSON_stringify products,
             clock (run before (launch e ks now)) + 1500 + 60000)
  /\ wire (fire (Request faults) (run before (launch e ks now)))
     = (wire (run before (launch e ks now))
        ++ [GET cacheKey; SETEX cacheKey 60 (JSON_stringify products)])%list.
Proof.
  intros Hc Hks Hexp Hup.
  pose proof (reachable_in_state e ks now before) as H.
  rewrite (in_state_getRedisClient _ _ H) in Hc.
  destruct (fold_left after before (launch_state e)); try discriminate.
  set (w := run before (launch e ks now)) in *.
  assert (Hlive : live cacheKey w = None).
  { unfold live. rewrite Hks.
    destruct (Z.leb_spec (clock w) expiry); [lia|reflexivity]. }
  destruct (ready_miss w faults None H Hup Hlive (or_introl eq_refl))
    as (Hres & Hwire & _ & Hk & _).
  split; [exact Hres|]. split; [|exact Hwire].
  rewrite Hk. apply lookup_insert_eq.
Qed.

End MoreRun.

(** The answers of a run begun with the key absent or holding the serialized
    list. *)
Lemma all_answers evs : forall st w,
  in_state st w -> holds_products w ->
  Forall (fun r => statusCode r = 200
                   /\ exists src, sent r = Some (Payload src products))
    (@responses text_JSON evs w).
Proof.
  induction evs as [|ev evs IH]; intros st w Hst Hks; [constructor|].
  destruct (fire_in_state (J:=text_JSON) st ev w Hst) as (Hst' & _).
  assert (Hks' : holds_products (@fire text_JSON ev w)).
  { destruct (fire_effects (J:=text_JSON) st ev w Hst) as ([Hk|(x & Hk)] & _).
    - unfold holds_products. rewrite Hk. exact Hks.
    - right. exists x. rewrite Hk. apply lookup_insert_eq. }
  specialize (IH _ _ Hst' Hks').
  destruct ev as [refused|c e|c|c|ms|faults]; cbn [responses]; try exact IH.
  constructor; [|exact IH].
  set (wq := set_res fresh_response (set_outages faults w)).
  change (@fire text_JSON (Request faults) w) with (snd (@route text_JSON wq)).
  destruct (route_cases (J:=text_JSON) wq) as (w' & Hroute & _ & Hcases).
  rewrite Hroute. cbn [snd].
  destruct Hcases as [(_ & Hres & _)
                     |[(text & v & _ & Hlive & _ & Hparse & Hres & _)
                      |(_ & Hres & _)]]; rewrite Hres.
  - split; [reflexivity|]. exists "db". reflexivity.
  - split; [reflexivity|]. exists "cache".
    change (live cacheKey wq) with (live cacheKey w) in Hlive.
    destruct (holds_products_live w Hks) as [Hl|Hl]; rewrite Hl in Hlive;
      [discriminate|].
    assert (Htext : text = Text.stringify products) by congruence.
    rewrite Htext in Hparse.
    pose proof products_round_trip as Hrt.
    change (Text.parse (Text.stringify products))
      with (JSON_parse (Text.stringify products)) in Hrt.
    rewrite Hrt in Hparse. inversion Hparse. reflexivity.
  - split; [reflexivity|]. exists "db". reflexivity.
Qed.

(** X7. Same content whatever the provenance. The key being at first absent,
    or holding the serialized list, every request of every run of the
    process (whatever the connection attempt gives, whatever fails and
    whenever entries expire) is answered with status 200 and the static list,
    tagged "cache" or "db". *)
Theorem every_answer_is_the_product_list (e : environment)
    (ks : gmap string (string * Z)) (now : Z) (evs : list event) :
  ks !! cacheKey = None
  \/ (exists expiry, ks !! cacheKey = Some (Text.stringify products, expiry)) ->
  Forall (fun r => statusCode r = 200
                   /\ exists src, sent r = Some (Payload src products))
    (@responses text_JSON evs (launch e ks now)).
Proof.
  intros Hks.
  destruct (launch_in_state e ks now) as (H & _ & Hk0 & _).
  apply (all_answers evs _ _ H).
  unfold holds_products. rewrite Hk0. exact Hks.
Qed.

(** * The users page *)

Lemma user_card_shown (user : json) :
  user <> JNull -> UsersPage.user_card user = Normal (UsersPage.shown user).
Proof. intros H. destruct user; try reflexivity. contradiction. Qed.

Lemma user_cards_shown (items : list json) :
  Forall UsersPage.displayable items ->
  UsersPage.user_cards items = Normal (map UsersPage.shown items)
  /\ forallb UsersPage.card_ok (map UsersPage.shown items) = true.
Proof.
  induction 1 as [|u us (Hu & Hok) _ (IH & IHok)]; [split; reflexivity|].
  cbn [UsersPage.user_cards map forallb].
  rewrite (user_card_shown u Hu), IH, Hok, IHok. split; reflexivity.
Qed.

Lemma user_cards_refused (items : list json) :
  Exists (fun u => u = JNull \/ UsersPage.card_ok (UsersPage.shown u) = false)
    items ->
  match UsersPage.user_cards items with
  | Normal cs => forallb UsersPage.card_ok cs = false
  | Thrown _ => True
  end.
Proof.
  induction 1 as [u us [Hu|Hu]|u us _ IH].
  - subst u. exact I.
  - assert (Hcase : u = JNull \/ u <> JNull)
      by (destruct u; (left; reflexivity) || (right; discriminate)).
    destruct Hcase as [->|Hnull]; [exact I|].
    cbn [UsersPage.user_cards]. rewrite (user_card_shown u Hnull).
    destruct (UsersPage.user_cards us); [|exact I].
    cbn [forallb]. rewrite Hu. reflexivity.
  - cbn [UsersPage.user_cards]. destruct (UsersPage.user_card u) as [c|]; [|exact I].
    destruct (UsersPage.user_cards us); [|exact I].
    cbn [forallb]. rewrite IH. apply andb_false_r.
Qed.

Lemma fetchUsers_loading (out : UsersPage.fetch_outcome) (s : UsersPage.state) :
  UsersPage.loading (UsersPage.fetchUsers out s) = false.
Proof.
  destruct out as [err|[] [data|err]]; try reflexivity.
  unfold UsersPage.fetchUsers. cbn.
  destruct (UsersPage.get data "data"); reflexivity.
Qed.

(** X8. Whatever [fetch] and [response.json()] come to (rejection, any
    status, any body), [fetchUsers] ends with [loading] false: once the
    request has settled the page never shows "Loading users..." again. *)
Theorem page_never_stuck_loading (out : UsersPage.fetch_outcome)
    (s : UsersPage.state) :
  UsersPage.loading (UsersPage.fetchUsers out s) = false
  /\ UsersPage.Users (UsersPage.fetchUsers out s) <> UsersPage.LoadingView.
Proof.
  pose proof (fetchUsers_loading out s) as H.
  split; [exact H|].
  unfold UsersPage.Users. rewrite H.
  destruct (UsersPage.shown_error _); [discriminate|].
  destruct (UsersPage.users _) as [[| | | |items|]|]; try discriminate.
  destruct (UsersPage.user_cards items) as [cs|err]; [|discriminate].
  destruct (forallb UsersPage.card_ok cs); discriminate.
Qed.

(** X9. Whatever a server sends with a status outside 200..299, the page
    shows "Failed to fetch users": the body is not parsed and nothing of it
    is displayed, the list of users is left as it was. *)
Theorem not_ok_shows_fixed_message `{J : JSON} (code : Z) (body : json) :
  code < 200 \/ 299 < code ->
  UsersPage.page (UsersPage.http (code, body))
    = UsersPage.ErrorView "Failed to fetch users"
  /\ UsersPage.users (UsersPage.fetchUsers (UsersPage.http (code, body))
                        UsersPage.initial)
     = UsersPage.users UsersPage.initial.
Proof.
  intros Hcode. unfold UsersPage.page, UsersPage.http. cbn [fst snd].
  assert (E : ((200 <=? code) && (code <=? 299))%Z = false).
  { apply andb_false_iff. destruct Hcode; [left|right]; apply Z.leb_gt; lia. }
  rewrite E. split; reflexivity.
Qed.

(** X10. When the response is ok and the [data] field of its body is an array
    of users the grid can show (none is null, none has an object for id,
    name, email or role), the page shows one card per element, in the order
    of the array, each with the element's id, name, email and role (undefined
    where the element has no such field); [success] and [count] play no part,
    and [error] stays null. *)
Theorem page_shows_each_user (data : json) (items : list json) :
  UsersPage.get data "data" = Normal (Some (JArray items)) ->
  Forall UsersPage.displayable items ->
  UsersPage.page (UsersPage.FetchResponse true (UsersPage.JsonValue data))
    = UsersPage.Directory (map UsersPage.shown items)
  /\ UsersPage.error
       (UsersPage.fetchUsers
          (UsersPage.FetchResponse true (UsersPage.JsonValue data))
          UsersPage.initial) = None.
Proof.
  intros Hdata Hitems.
  unfold UsersPage.page, UsersPage.fetchUsers. cbn [negb].
  rewrite Hdata. cbn.
  destruct (user_cards_shown items Hitems) as (-> & ->). split; reflexivity.
Qed.

(** X11. An ok response whose body is JSON other than null but carries no
    list the grid can show (no [data] field, a [data] that is not an array,
    or an array with an element that is null or has an object for id, name,
    email or role) makes the component throw while rendering: no error
    message is shown. A body that is null is caught instead, and shown as an
    error. *)
Theorem ok_without_list_breaks_render (data : json) :
  (data <> JNull ->
   (forall items,
       UsersPage.get data "data" = Normal (Some (JArray items)) ->
       Exists (fun u => u = JNull
                        \/ UsersPage.card_ok (UsersPage.shown u) = false)
         items) ->
   exists err,
     UsersPage.page (UsersPage.FetchResponse true (UsersPage.JsonValue data))
       = UsersPage.RenderError err)
  /\ UsersPage.page (UsersPage.FetchResponse true (UsersPage.JsonValue JNull))
     = UsersPage.ErrorView "Cannot read properties of null (reading 'data')".
Proof.
  split; [|reflexivity].
  intros Hnull Hlist.
  unfold UsersPage.page, UsersPage.fetchUsers. cbn [negb].
  destruct (UsersPage.get data "data") as [d|err] eqn:Hget.
  2:{ destruct data; try discriminate. contradiction. }
  cbn. destruct d as [[| | | |items|]|]; try (eexists; reflexivity).
  pose proof (user_cards_refused items (Hlist items eq_refl)) as Hcards.
  destruct (UsersPage.user_cards items) as [cs|err]; [|eexists; reflexivity].
  rewrite Hcards. eexists. reflexivity.
Qed.

(** X12. The page against the backend route. Whatever list of users the grid
    can show [app.get("/api/users")] closes on, provided [JSON.parse] reads
    back what [JSON.stringify] wrote of the body, the page shows one card per
    user of the backend, in the same order. *)
Theorem page_shows_backend_users `{J : JSON} (us : list json) :
  Forall UsersPage.displayable us ->
  JSON_parse (JSON_stringify (snd (App.users_route_over us)))
    = Some (snd (App.users_route_over us)) ->
  UsersPage.page (UsersPage.http (App.users_route_over us))
    = UsersPage.Directory (map UsersPage.shown us).
Proof.
  intros Hus Hrt.
  unfold UsersPage.page, UsersPage.http. rewrite Hrt. cbn [fst App.users_route_over].
  change ((200 <=? 200) && (200 <=? 299))%Z with true.
  unfold UsersPage.fetchUsers. cbn.
  destruct (user_cards_shown us Hus) as (-> & ->). reflexivity.
Qed.

(** ** The adapter and its callers *)

(** X13. Called as app.js calls it, [connectRedis] returns what
    [getRedisClient] hands out right after it: the client when the cache is
    enabled and the connection accepted, null when the cache is disabled or
    the connection refused. *)
Theorem connectRedis_returns_the_usable_client (e : environment)
    (ks : gmap string (string * Z)) (now : Z) (refused : bool) :
  exists r w1,
    connectRedis (set_outages [refused] (boot e ks now)) = (Normal r, w1)
    /\ getRedisClient w1 = r
    /\ redisClient w1 = r
    /\ (r <> None <-> REDIS_ENABLED e = Some "true" /\ refused = false).
Proof.
  unfold connectRedis, bind, gets. cbn [env set_outages boot].
  destruct (not_true (REDIS_ENABLED e)) eqn:E.
  - eexists _, _. split; [reflexivity|]. cbn.
    split; [reflexivity|]. split; [reflexivity|]. split.
    + intros Hr. contradiction.
    + intros (Hon & _). rewrite (not_true_false _ Hon) in E. discriminate.
  - assert (Hon : REDIS_ENABLED e = Some "true").
    { destruct (REDIS_ENABLED e) as [s|] eqn:Es; [|discriminate].
      unfold not_true in E. apply negb_false_iff, String.eqb_eq in E. congruence. }
    destruct refused.
    + eexists _, _. split; [vm_compute; reflexivity|]. cbn.
      split; [reflexivity|]. split; [reflexivity|]. split.
      * intros Hr. contradiction.
      * intros (_ & Hr). discriminate.
    + eexists _, _. split; [vm_compute; reflexivity|]. cbn.
      split; [reflexivity|]. split; [reflexivity|]. split.
      * intros _. split; [exact Hon|reflexivity].
      * intros _. discriminate.
Qed.

Section Frame.
Context `{J : JSON}.

(** X14. The handler never touches the connection state: whatever the world
    and whatever becomes of its commands, a request leaves [redisClient],
    [redisReady], the client objects and the environment as they were, so
    [getRedisClient] gives after it what it gave before. A command that fails
    does not take the cache out of use. *)
Theorem requests_leave_the_adapter_alone (w : world) (faults : list bool) :
  redisClient (fire (Request faults) w) = redisClient w
  /\ redisReady (fire (Request faults) w) = redisReady w
  /\ heap (fire (Request faults) w) = heap w
  /\ env (fire (Request faults) w) = env w
  /\ getRedisClient (fire (Request faults) w) = getRedisClient w.
Proof.
  pose proof (serve_same_adapter faults w) as H.
  change (snd (serve faults w)) with (fire (Request faults) w) in H.
  pose proof (same_adapter_getRedisClient _ _ H) as Hg.
  destruct H as (He & Hc & Hr & Hh). repeat split; assumption.
Qed.

End Frame.

(** ** These theorems at sample inputs *)

Lemma rejected_read_falls_back_witness :
  getRedisClient read_down = Some 0%nat
  /\ client_get 0 cacheKey read_down = (Thrown SocketClosedUnexpectedly, read_down_after)
  /\ exists w',
       @route text_JSON read_down = (Normal tt, w')
       /\ res w' = reply 200 (Payload "db" products)
       /\ console w' = (console read_down ++ [read_warning])%list
       /\ keyspace w' !! cacheKey = Some (Text.stringify products, 61500).
Proof.
  assert (H1 : getRedisClient read_down = Some 0%nat) by (vm_compute; reflexivity).
  assert (H2 : client_get 0 cacheKey read_down
               = (Thrown SocketClosedUnexpectedly, read_down_after))
    by (vm_compute; reflexivity).
  split; [exact H1|]. split; [exact H2|].
  destruct (rejected_read_falls_back (J:=text_JSON) read_down read_down_after 0%nat
              SocketClosedUnexpectedly H1 H2)
    as (w' & Hroute & Hres & _ & _ & Hcon & Hks).
  exists w'. split; [exact Hroute|]. split; [exact Hres|].
  split; [rewrite Hcon; reflexivity|].
  rewrite Hks. apply lookup_insert_eq.
Defined.

Lemma handle_is_connected_witness :
  getRedisClient (@run text_JSON [ConnectSettled false] (launch env_on ∅ 0))
    = Some 0%nat
  /\ heap (@run text_JSON [ConnectSettled false] (launch env_on ∅ 0)) !! 0%nat
     = Some (the_client env_on Open)
  /\ is_open 0 (@run text_JSON [ConnectSettled false] (launch env_on ∅ 0)) = true
  /\ redisReady (@run text_JSON [ConnectSettled false] (launch env_on ∅ 0)) = true.
Proof.
  assert (H : getRedisClient (@run text_JSON [ConnectSettled false] (launch env_on ∅ 0))
              = Some 0%nat) by reflexivity.
  split; [exact H|].
  exact (handle_is_connected (J:=text_JSON) env_on ∅ 0 [ConnectSettled false] 0%nat H).
Defined.


Lemma expired_entry_is_refreshed_witness :
  getRedisClient
    (@run text_JSON [ConnectSettled false; Request []; Elapse 70000] (launch env_on ∅ 0))
    = Some 0%nat
  /\ keyspace
       (@run text_JSON [ConnectSettled false; Request []; Elapse 70000]
          (launch env_on ∅ 0)) !! cacheKey = Some (Text.stringify products, 61500)
  /\ 61500 < clock (@run text_JSON [ConnectSettled false; Request []; Elapse 70000]
                      (launch env_on ∅ 0))
  /\ forallb negb [] = true
  /\ res (@fire text_JSON (Request [])
            (@run text_JSON [ConnectSettled false; Request []; Elapse 70000]
               (launch env_on ∅ 0)))
     = reply 200 (Payload "db" products)
  /\ keyspace (@fire text_JSON (Request [])
                 (@run text_JSON [ConnectSettled false; Request []; Elapse 70000]
                    (launch env_on ∅ 0))) !! cacheKey
     = Some (Text.stringify products, 71500 + 1500 + 60000).
Proof.
  assert (H1 : getRedisClient
                 (@run text_JSON [ConnectSettled false; Request []; Elapse 70000]
                    (launch env_on ∅ 0)) = Some 0%nat) by (vm_compute; reflexivity).
  assert (H2 : keyspace
                 (@run text_JSON [ConnectSettled false; Request []; Elapse 70000]
                    (launch env_on ∅ 0)) !! cacheKey
               = Some (Text.stringify products, 61500)) by (vm_compute; reflexivity).
  assert (H3 : 61500 < clock (@run text_JSON [ConnectSettled false; Request []; Elapse 70000]
                               (launch env_on ∅ 0))) by (vm_compute; reflexivity).
  assert (H4 : forallb negb [] = true) by reflexivity.
  split; [exact H1|]. split; [exact H2|]. split; [exact H3|]. split; [exact H4|].
  destruct (expired_entry_is_refreshed (J:=text_JSON) env_on ∅ 0
              [ConnectSettled false; Request []; Elapse 70000] 0%nat
              (Text.stringify products) 61500 [] H1 H2 H3 H4) as (A & B & _).
  split; [exact A|exact B].
Defined.

Lemma every_answer_is_the_product_list_witness :
  ((∅ : gmap string (string * Z)) !! cacheKey = None
   \/ exists expiry,
        (∅ : gmap string (string * Z)) !! cacheKey
        = Some (Text.stringify products, expiry))
  /\ Forall (fun r => statusCode r = 200
                      /\ exists src, sent r = Some (Payload src products))
       (@responses text_JSON
          [Request []; ConnectSettled false; Request [true]; Request [false; true];
           Request []; SocketError 0 SocketClosedUnexpectedly; Request []]
          (launch env_on ∅ 0)).
Proof.
  assert (H : (∅ : gmap string (string * Z)) !! cacheKey = None
              \/ exists expiry,
                   (∅ : gmap string (string * Z)) !! cacheKey
                   = Some (Text.stringify products, expiry))
    by (left; reflexivity).
  split; [exact H|].
  exact (every_answer_is_the_product_list env_on ∅ 0 _ H).
Defined.

Lemma not_ok_shows_fixed_message_witness :
  (500 < 200 \/ 299 < 500)
  /\ UsersPage.page
       (@UsersPage.http text_JSON
          (500, JObject [("error", JString "Internal server error")]))
     = UsersPage.ErrorView "Failed to fetch users".
Proof.
  assert (H : 500 < 200 \/ 299 < 500) by (right; reflexivity).
  split; [exact H|].
  exact (proj1 (not_ok_shows_fixed_message (J:=text_JSON) 500
                  (JObject [("error", JString "Internal server error")]) H)).
Defined.

Lemma app_users_displayable : Forall UsersPage.displayable App.users.
Proof. repeat constructor; discriminate. Defined.

Lemma page_shows_each_user_witness :
  UsersPage.get (snd App.users_route) "data" = Normal (Some (JArray App.users))
  /\ Forall UsersPage.displayable App.users
  /\ UsersPage.page
       (UsersPage.FetchResponse true (UsersPage.JsonValue (snd App.users_route)))
     = UsersPage.Directory (map UsersPage.shown App.users).
Proof.
  assert (H1 : UsersPage.get (snd App.users_route) "data"
               = Normal (Some (JArray App.users))) by reflexivity.
  split; [exact H1|]. split; [exact app_users_displayable|].
  exact (proj1 (page_shows_each_user (snd App.users_route) App.users H1
                  app_users_displayable)).
Defined.

Lemma page_shows_backend_users_witness :
  Forall UsersPage.displayable App.users
  /\ JSON_parse (JSON_stringify (snd (App.users_route_over App.users)))
     = Some (snd (App.users_route_over App.users))
  /\ UsersPage.page (@UsersPage.http text_JSON App.users_route)
     = UsersPage.Directory (map UsersPage.shown App.users).
Proof.
  assert (H : JSON_parse (JSON_stringify (snd (App.users_route_over App.users)))
              = Some (snd (App.users_route_over App.users)))
    by (vm_compute; reflexivity).
  split; [exact app_users_displayable|]. split; [exact H|].
  exact (page_shows_backend_users (J:=text_JSON) App.users app_users_displayable H).
Defined.
